(** * RealLife: the progression and state-persistence engine of [App.tsx]

    A shallow embedding of the level calculator, the quest state machine,
    the storage wrapper, the persistence coordinator and the daily-reset
    check of [src/App.tsx], with the properties of the specification
    stated and settled against it.

    Conventions of the embedding.
    - A JavaScript [number] that the engine only ever uses as an integer
      (XP, costs, levels, hours) is a [Z]; the model is exact as long as
      the values stay below 2^53, where doubles hold integers exactly.
    - The one genuinely fractional result, the level-progress
      percentage, is a rational [Q]: the value of the source expression
      in exact arithmetic.
    - React state is an explicit record; a state setter called with an
      updater function is a function on that record. *)

From Stdlib Require Import ZArith QArith Qminmax Lia.
From stdpp Require Import base decidable option list strings pretty gmap.

Local Open Scope Z_scope.

(** Closes a decidable closed goal by evaluation. *)
Ltac by_computation := apply (bool_decide_unpack _); vm_compute; exact I.

(** * Progression calculator *)

Module Progression.

(** [levelTable], lines 262-273 of [App.tsx]. *)
Definition levelTable : list Z :=
  [ 500; 540; 583; 630; 680; 734; 793; 856; 924; 998;
    1079; 1166; 1259; 1359; 1468; 1585; 1712; 1849; 1997; 2157;
    2330; 2517; 2718; 2936; 3171; 3424; 3698; 3994; 4314; 4659;
    5032; 5434; 5869; 6338; 6845; 7393; 7984; 8623; 9313; 10058;
    10862; 11731; 12670; 13683; 14778; 15960; 17237; 18616; 20105; 21713;
    23450; 25326; 27352; 29540; 31903; 34455; 37211; 40188; 43403; 46875;
    50625; 54675; 59049; 63773; 68875; 74385; 80336; 86763; 93704; 101200;
    109296; 118040; 127483; 137682; 148696; 160592; 173439; 187314; 202299; 218483;
    235962; 254839; 275226; 297244; 321024; 346706; 374442; 404398; 436750; 471690;
    509425; 550180; 594194; 641730; 693068; 748514; 808395; 872667; 942480; 1017878 ].

(** The body of the [for] loop of [getLevel], started at index [i] with
    the running total [totalXpNeeded]; [rest] is the part of the table
    from index [i] on.  [Some (i + 1)] is the early [return]; [None] is
    the loop running off the end of the table. *)
Fixpoint getLevel_from (rest : list Z) (i totalXpNeeded xp : Z) : option Z :=
  match rest with
  | [] => None
  | c :: rest' =>
      let totalXpNeeded := totalXpNeeded + c in
      if xp <? totalXpNeeded then Some (i + 1)
      else getLevel_from rest' (i + 1) totalXpNeeded xp
  end.

Definition getLevel_in (table : list Z) (xp : Z) : Z :=
  match getLevel_from table 0 0 xp with
  | Some level => level
  | None => Z.of_nat (length table)
  end.

Definition getLevel (xp : Z) : Z := getLevel_in levelTable xp.

(** [levelTable[k]]; a read outside the table gives [undefined] in the
    source, here the default [0].  Every read the calculator performs is
    inside the table (lemma [getLevel_index_in_table] below). *)
Definition tableAt (table : list Z) (k : Z) : Z :=
  if k <? 0 then 0 else nth (Z.to_nat k) table 0.

(** [for (let i = 0; i < n; i++) total += levelTable[i]]. *)
Fixpoint sumFirst (table : list Z) (n : nat) {struct n} : Z :=
  match n, table with
  | O, _ => 0
  | S _, [] => 0
  | S n', c :: table' => c + sumFirst table' n'
  end.

Definition totalXpForLevel (currentLevel : Z) : Z :=
  sumFirst levelTable (Z.to_nat (currentLevel - 1)).

Definition getXPInCurrentLevel (xp : Z) : Z :=
  let currentLevel := getLevel xp in
  xp - totalXpForLevel currentLevel.

Definition getXPNeededForCurrentLevel (xp : Z) : Z :=
  let currentLevel := getLevel xp in
  if 100 <=? currentLevel then tableAt levelTable 99
  else tableAt levelTable (currentLevel - 1).

(** [Math.min(100, (xpInCurrentLevel / xpNeededForCurrentLevel) * 100)],
    in exact rational arithmetic. *)
Definition getLevelProgress (xp : Z) : Q :=
  let currentLevel := getLevel xp in
  if 100 <=? currentLevel then 100%Q
  else
    let totalXpForCurrentLevel := totalXpForLevel currentLevel in
    let xpInCurrentLevel := xp - totalXpForCurrentLevel in
    let xpNeededForCurrentLevel := tableAt levelTable (currentLevel - 1) in
    Qmin 100 ((inject_Z xpInCurrentLevel / inject_Z xpNeededForCurrentLevel) * 100).

Definition getXPToNextLevel (xp : Z) : Z :=
  let currentLevel := getLevel xp in
  if 100 <=? currentLevel then 0
  else
    let xpForNextLevel := tableAt levelTable currentLevel in
    xpForNextLevel - xp.

(** The level the loop yields, counted from the start index. *)
Definition levelFrom (rest : list Z) (i acc xp : Z) : Z :=
  match getLevel_from rest i acc xp with
  | Some level => level
  | None => i + Z.of_nat (length rest)
  end.

(** The specification's wording of [xpToNextLevel], to be compared with
    [getXPToNextLevel]: the XP still missing for the next level boundary,
    that is the total cost of the table through the current level minus
    [xp], and [0] at the cap. *)
Definition xpToNextLevel_as_specified (xp : Z) : Z :=
  let currentLevel := getLevel xp in
  if 100 <=? currentLevel then 0
  else sumFirst levelTable (Z.to_nat currentLevel) - xp.

(** ** Level rewards and the motivational message *)

(** An entry of the [rewards] object of [getLevelRewards]. *)
Record Reward := mkReward { title : string; reward : string; description : string }.

(** The [rewards] object: the milestone levels and what they give. *)
Definition rewards : list (Z * Reward) :=
  [ (1, mkReward "Початок" "Перша перемога" "Перший крок до успіху");
    (2, mkReward "Учень" "Плащ новачка" "Стильний плащ для початківця");
    (3, mkReward "Практикант" "Ремінь сили" "Ремінь, що збільшує силу");
    (4, mkReward "Досвідчений" "Перстень мудрості" "Магічний перстень");
    (5, mkReward "Воїн" "Міць рішучості" "Внутрішня сила для досягнення цілей");
    (6, mkReward "Мисливець" "Браслет удачі" "Браслет, що приносить удачу");
    (7, mkReward "Мандрівник" "Чоботи швидкості" "Чоботи для швидких подорожей");
    (8, mkReward "Дослідник" "Талісман знань" "Талісман для розширення знань");
    (9, mkReward "Маг" "Аура світіння" "Персонаж починає світитися");
    (10, mkReward "Магістр" "Мантія володаря" "Легендарна мантія");
    (15, mkReward "Експерт" "Корона досягнень" "Символ майстерності");
    (20, mkReward "Майстер" "Скіпетр влади" "Знак справжнього лідерства");
    (25, mkReward "Грандмайстер" "Аура легенди" "Ти стаєш легендою");
    (30, mkReward "Архімаг" "Мантія безсмертя" "Безсмертна мантія");
    (40, mkReward "Титан" "Броня богів" "Божественна захист");
    (50, mkReward "Імперіал" "Корона світу" "Правитель світу");
    (60, mkReward "Божество" "Скіпетр творця" "Сила створювати світи");
    (70, mkReward "Творець" "Корона всесвіту" "Володар всього");
    (80, mkReward "Безмежний" "Енергія вічності" "Безмежна сила");
    (90, mkReward "Абсолют" "Корона абсолюту" "Досягнення абсолюту");
    (100, mkReward "Бог" "Безмежна сила" "Ти став богом прогресу") ].

(** [rewards[i]]; [None] is [undefined]. *)
Definition rewardAt (i : Z) : option Reward :=
  snd <$> List.find (λ entry, fst entry =? i) rewards.

(** The loop [for (let i = level; i >= 1; i--)] of [getLevelRewards],
    with [n] iterations left: the first milestone met on the way down,
    or the initial [rewardLevel = 1]. *)
Fixpoint scanDown (n : nat) (i : Z) : Z :=
  match n with
  | O => 1
  | S n' =>
      if 1 <=? i then
        match rewardAt i with
        | Some _ => i
        | None => scanDown n' (i - 1)
        end
      else 1
  end.

(** [rewardLevel] after the loop; from [level] down to [1] there are
    [level] iterations. *)
Definition rewardLevel (level : Z) : Z := scanDown (Z.to_nat level) level.

Definition fallbackReward : Reward :=
  mkReward "Бог" "Безмежна сила" "Ти досяг найвищих висот".

Definition getLevelRewards (level : Z) : Reward :=
  match rewardAt (rewardLevel level) with
  | Some r => r
  | None => fallbackReward
  end.

(** [getMotivationalMessage()], as a function of [userProfile.totalXP];
    the number in the template is printed in decimal. *)
Definition getMotivationalMessage (totalXP : Z) : string :=
  let currentLevel := getLevel totalXP in
  let xpToNext := getXPToNextLevel totalXP in
  if (xpToNext <=? 50) && (currentLevel <? 100) then
    "Ще " +:+ pretty xpToNext +:+ " XP — і нова нагорода чекає 🚀"
  else if 50 <=? currentLevel then "Ти справжній майстер! Продовжуй у тому ж дусі 💪"
  else if 25 <=? currentLevel then "Відмінний прогрес! Ти на правильному шляху 🌟"
  else if 10 <=? currentLevel then "Добре йдеш! Продовжуй розвиватися 🎯"
  else "Кожен крок наближає до мети! Продовжуй! 🌱".

(** The message of the first branch for a given amount. *)
Definition nearMessage (xpToNext : Z) : string :=
  "Ще " +:+ pretty xpToNext +:+ " XP — і нова нагорода чекає 🚀".


Definition masterMessage : string := "Ти справжній майстер! Продовжуй у тому ж дусі 💪".
Definition everyStepMessage : string := "Кожен крок наближає до мети! Продовжуй! 🌱".

End Progression.

(** * Quest state machine *)

(** The objects of the three collections, with the fields the source
    gives them.  Each record lives in a module of its own so that the
    fields keep their source names. *)

Module Step.
Record t := mk { id : string; text : string; completed : bool }.
End Step.

Module MainQuest.
Record t := mk {
    id : string; title : string; description : string; icon : string;
    xp : Z; category : string; progress : Z; color : string;
    steps : list Step.t }.
End MainQuest.

Module DailyQuest.
Record t := mk {
    id : Z; title : string; xp : Z; completed : bool;
    emoji : string; color : string; category : string }.
End DailyQuest.

Module UserProfile.
Record t := mk {
    name : string; avatar : string; totalXP : Z; level : Z; streak : Z;
    mood : string; moodText : string }.
End UserProfile.

(** [ThemeType = 'light' | 'dark' | 'accent']. *)
Inductive ThemeType := light | dark | accent.

Module Quests.

(** The component's state cells ([React.useState]) that the engine reads
    and writes.  [pendingBonus] is not a state cell: it is the queue of
    [setTimeout] callbacks that [toggleQuestStep] has scheduled and that
    have not run yet, each one adding its amount to [totalXP]. *)
Record State := mkState {
  userProfile : UserProfile.t;
  selectedCharacter : string;
  completedQuests : gset string;
  lastResetDate : string;
  notifications : bool;
  progressReminders : bool;
  soundEnabled : bool;
  vibrationsEnabled : bool;
  animationsEnabled : bool;
  theme : ThemeType;
  mainQuests : list MainQuest.t;
  dailyQuests : list DailyQuest.t;
  pendingBonus : list Z }.

(** The state setters, applied to an updater function. *)
Definition setUserProfile (f : UserProfile.t → UserProfile.t) (s : State) : State :=
  mkState (f (userProfile s)) (selectedCharacter s) (completedQuests s)
    (lastResetDate s) (notifications s) (progressReminders s) (soundEnabled s)
    (vibrationsEnabled s) (animationsEnabled s) (theme s) (mainQuests s)
    (dailyQuests s) (pendingBonus s).

Definition setSelectedCharacter (c : string) (s : State) : State :=
  mkState (userProfile s) c (completedQuests s)
    (lastResetDate s) (notifications s) (progressReminders s) (soundEnabled s)
    (vibrationsEnabled s) (animationsEnabled s) (theme s) (mainQuests s)
    (dailyQuests s) (pendingBonus s).

Definition setCompletedQuests (f : gset string → gset string) (s : State) : State :=
  mkState (userProfile s) (selectedCharacter s) (f (completedQuests s))
    (lastResetDate s) (notifications s) (progressReminders s) (soundEnabled s)
    (vibrationsEnabled s) (animationsEnabled s) (theme s) (mainQuests s)
    (dailyQuests s) (pendingBonus s).

Definition setLastResetDate (d : string) (s : State) : State :=
  mkState (userProfile s) (selectedCharacter s) (completedQuests s)
    d (notifications s) (progressReminders s) (soundEnabled s)
    (vibrationsEnabled s) (animationsEnabled s) (theme s) (mainQuests s)
    (dailyQuests s) (pendingBonus s).

Definition setNotifications (b : bool) (s : State) : State :=
  mkState (userProfile s) (selectedCharacter s) (completedQuests s)
    (lastResetDate s) b (progressReminders s) (soundEnabled s)
    (vibrationsEnabled s) (animationsEnabled s) (theme s) (mainQuests s)
    (dailyQuests s) (pendingBonus s).

Definition setProgressReminders (b : bool) (s : State) : State :=
  mkState (userProfile s) (selectedCharacter s) (completedQuests s)
    (lastResetDate s) (notifications s) b (soundEnabled s)
    (vibrationsEnabled s) (animationsEnabled s) (theme s) (mainQuests s)
    (dailyQuests s) (pendingBonus s).

Definition setSoundEnabled (b : bool) (s : State) : State :=
  mkState (userProfile s) (selectedCharacter s) (completedQuests s)
    (lastResetDate s) (notifications s) (progressReminders s) b
    (vibrationsEnabled s) (animationsEnabled s) (theme s) (mainQuests s)
    (dailyQuests s) (pendingBonus s).

Definition setVibrationsEnabled (b : bool) (s : State) : State :=
  mkState (userProfile s) (selectedCharacter s) (completedQuests s)
    (lastResetDate s) (notifications s) (progressReminders s) (soundEnabled s)
    b (animationsEnabled s) (theme s) (mainQuests s)
    (dailyQuests s) (pendingBonus s).

Definition setAnimationsEnabled (b : bool) (s : State) : State :=
  mkState (userProfile s) (selectedCharacter s) (completedQuests s)
    (lastResetDate s) (notifications s) (progressReminders s) (soundEnabled s)
    (vibrationsEnabled s) b (theme s) (mainQuests s)
    (dailyQuests s) (pendingBonus s).

Definition setTheme (t : ThemeType) (s : State) : State :=
  mkState (userProfile s) (selectedCharacter s) (completedQuests s)
    (lastResetDate s) (notifications s) (progressReminders s) (soundEnabled s)
    (vibrationsEnabled s) (animationsEnabled s) t (mainQuests s)
    (dailyQuests s) (pendingBonus s).

Definition setMainQuests (f : list MainQuest.t → list MainQuest.t) (s : State) : State :=
  mkState (userProfile s) (selectedCharacter s) (completedQuests s)
    (lastResetDate s) (notifications s) (progressReminders s) (soundEnabled s)
    (vibrationsEnabled s) (animationsEnabled s) (theme s) (f (mainQuests s))
    (dailyQuests s) (pendingBonus s).

Definition setDailyQuests (f : list DailyQuest.t → list DailyQuest.t) (s : State) : State :=
  mkState (userProfile s) (selectedCharacter s) (completedQuests s)
    (lastResetDate s) (notifications s) (progressReminders s) (soundEnabled s)
    (vibrationsEnabled s) (animationsEnabled s) (theme s) (mainQuests s)
    (f (dailyQuests s)) (pendingBonus s).

(** [setTimeout(callback, 100)] where the callback adds [amount] to
    [totalXP]. *)
Definition setTimeout (amount : Z) (s : State) : State :=
  mkState (userProfile s) (selectedCharacter s) (completedQuests s)
    (lastResetDate s) (notifications s) (progressReminders s) (soundEnabled s)
    (vibrationsEnabled s) (animationsEnabled s) (theme s) (mainQuests s)
    (dailyQuests s) (pendingBonus s ++ [amount]).

Definition clearTimers (s : State) : State :=
  mkState (userProfile s) (selectedCharacter s) (completedQuests s)
    (lastResetDate s) (notifications s) (progressReminders s) (soundEnabled s)
    (vibrationsEnabled s) (animationsEnabled s) (theme s) (mainQuests s)
    (dailyQuests s) [].

(** [prev => ({ ...prev, totalXP: prev.totalXP + amount })]. *)
Definition addXP (amount : Z) (prev : UserProfile.t) : UserProfile.t :=
  UserProfile.mk (UserProfile.name prev) (UserProfile.avatar prev)
    (UserProfile.totalXP prev + amount) (UserProfile.level prev)
    (UserProfile.streak prev) (UserProfile.mood prev) (UserProfile.moodText prev).

Definition totalXP (s : State) : Z := UserProfile.totalXP (userProfile s).

(** The scheduled callbacks run: every pending bonus is added. *)
Definition runTimers (s : State) : State :=
  clearTimers (foldl (λ s amount, setUserProfile (addXP amount) s) s (pendingBonus s)).

(** ** Daily quests: [handleQuestComplete] *)

Definition completeDaily (quest : DailyQuest.t) : DailyQuest.t :=
  DailyQuest.mk (DailyQuest.id quest) (DailyQuest.title quest) (DailyQuest.xp quest)
    true (DailyQuest.emoji quest) (DailyQuest.color quest) (DailyQuest.category quest).

Definition dailyMatches (questId : Z) (quest : DailyQuest.t) : bool :=
  (DailyQuest.id quest =? questId) && negb (DailyQuest.completed quest).

Definition handleQuestComplete (questId : Z) (s : State) : State :=
  let awarded := List.filter (dailyMatches questId) (dailyQuests s) in
  let s := setDailyQuests
             (map (λ quest, if dailyMatches questId quest then completeDaily quest else quest)) s in
  foldl (λ s quest, setUserProfile (addXP (DailyQuest.xp quest)) s) s awarded.

(** ** Main quests: [toggleQuestStep] *)

(** [stepXP = 30], the fixed award of one step. *)
Definition stepXP : Z := 30.

(** [quest.xp || 1000]: a zero [xp] is falsy. *)
Definition questBonus (quest : MainQuest.t) : Z :=
  if MainQuest.xp quest =? 0 then 1000 else MainQuest.xp quest.

Definition withCompleted (b : bool) (step : Step.t) : Step.t :=
  Step.mk (Step.id step) (Step.text step) b.

(** [step.id === stepId && !step.completed ? { ...step, completed: true } : step]. *)
Definition updateStep (stepId : string) (step : Step.t) : Step.t :=
  if String.eqb (Step.id step) stepId && negb (Step.completed step)
  then withCompleted true step else step.

(** [steps.filter(step => step.completed).length]. *)
Definition completedCount (steps : list Step.t) : nat :=
  length (List.filter Step.completed steps).

(** [Math.round((completedSteps / total) * 100)], in exact arithmetic:
    the nearest integer, a half rounded up.  For the twenty-step quests
    of the table it is [5 * completedSteps].  (For a quest without steps
    the source computes [NaN]; such a quest does not occur in the table
    and the value given here, [0], stands in for it.) *)
Definition roundPercent (completedSteps total : nat) : Z :=
  (200 * Z.of_nat completedSteps + Z.of_nat total) / (2 * Z.of_nat total).

(** The XP awards that the source emits from inside the [map] callback. *)
Inductive Award :=
  | StepAward (amount : Z)
  | CompletionBonus (questId : string) (amount : Z).

(** The awards of one pass of the callback over [quest], which has the
    id [questId]; [completedQuests] is the set the callback closes over,
    that is the set as it was when [toggleQuestStep] was called. *)
Definition questAwards (completedQuests : gset string) (questId stepId : string)
    (quest : MainQuest.t) (updatedSteps : list Step.t) : list Award :=
  match List.find (λ s, String.eqb (Step.id s) stepId) (MainQuest.steps quest) with
  | Some step =>
      if negb (Step.completed step) then
        StepAward stepXP ::
        (let newCompletedSteps := completedCount updatedSteps in
         if (newCompletedSteps =? length (MainQuest.steps quest))%nat
            && negb (bool_decide (questId ∈ completedQuests))
         then [CompletionBonus questId (questBonus quest)]
         else [])
      else []
  | None => []
  end.

(** The callback of [prevQuests.map]: the quest it returns and the
    awards it emits on the way. *)
Definition toggleInQuest (completedQuests : gset string) (questId stepId : string)
    (quest : MainQuest.t) : MainQuest.t * list Award :=
  if String.eqb (MainQuest.id quest) questId then
    let updatedSteps := map (updateStep stepId) (MainQuest.steps quest) in
    let completedSteps := completedCount updatedSteps in
    let progress := roundPercent completedSteps (length (MainQuest.steps quest)) in
    (MainQuest.mk (MainQuest.id quest) (MainQuest.title quest)
       (MainQuest.description quest) (MainQuest.icon quest) (MainQuest.xp quest)
       (MainQuest.category quest) progress (MainQuest.color quest) updatedSteps,
     questAwards completedQuests questId stepId quest updatedSteps)
  else (quest, []).

(** What one award does to the state: a step award is added to
    [totalXP] at once; a completion bonus records the quest in
    [completedQuests] at once and schedules the addition of its amount. *)
Definition applyAward (s : State) (a : Award) : State :=
  match a with
  | StepAward amount => setUserProfile (addXP amount) s
  | CompletionBonus questId amount =>
      setTimeout amount (setCompletedQuests (λ prev, prev ∪ {[questId]}) s)
  end.

Definition toggleAwards (questId stepId : string) (s : State) : list Award :=
  concat (map (λ quest, snd (toggleInQuest (completedQuests s) questId stepId quest))
              (mainQuests s)).

Definition toggleQuestStep (questId stepId : string) (s : State) : State :=
  let awards := toggleAwards questId stepId s in
  let s' := setMainQuests
              (map (λ quest, fst (toggleInQuest (completedQuests s) questId stepId quest))) s in
  foldl applyAward s' awards.

(** ** [resetAllQuests] and [resetDailyQuests] *)

Definition resetQuest (quest : MainQuest.t) : MainQuest.t :=
  MainQuest.mk (MainQuest.id quest) (MainQuest.title quest)
    (MainQuest.description quest) (MainQuest.icon quest) (MainQuest.xp quest)
    (MainQuest.category quest) 0 (MainQuest.color quest)
    (map (withCompleted false) (MainQuest.steps quest)).

Definition resetAllQuests (s : State) : State :=
  setCompletedQuests (λ _, ∅) (setMainQuests (map resetQuest) s).

Definition resetDaily (quest : DailyQuest.t) : DailyQuest.t :=
  DailyQuest.mk (DailyQuest.id quest) (DailyQuest.title quest) (DailyQuest.xp quest)
    false (DailyQuest.emoji quest) (DailyQuest.color quest) (DailyQuest.category quest).

(** [currentDate] is the value of [getCurrentDateString()] at the call. *)
Definition resetDailyQuests (currentDate : string) (s : State) : State :=
  setLastResetDate currentDate (setDailyQuests (map resetDaily) s).

(** ** Runs of the machine *)

(** The events of a session: a call of one of the operations, or the
    timer queue being served. *)
Inductive Action :=
  | ToggleStep (questId stepId : string)
  | CompleteDaily (questId : Z)
  | ResetAll
  | ResetDaily (currentDate : string)
  | TimersFire.

Definition step (s : State) (a : Action) : State :=
  match a with
  | ToggleStep questId stepId => toggleQuestStep questId stepId s
  | CompleteDaily questId => handleQuestComplete questId s
  | ResetAll => resetAllQuests s
  | ResetDaily currentDate => resetDailyQuests currentDate s
  | TimersFire => runTimers s
  end.

Definition run (s : State) (actions : list Action) : State := foldl step s actions.

Inductive reachable (s0 : State) : State → Prop :=
  | reachable_start : reachable s0 s0
  | reachable_step s a : reachable s0 s → reachable s0 (step s a).


Definition bonusesOf (questId : string) (awards : list Award) : list Z :=
  omap (λ a, match a with
             | CompletionBonus q amount => if String.eqb q questId then Some amount else None
             | StepAward _ => None
             end) awards.

Definition awardAmount (a : Award) : Z :=
  match a with StepAward amount => amount | CompletionBonus _ amount => amount end.

Definition allCompleted (quest : MainQuest.t) : bool :=
  forallb Step.completed (MainQuest.steps quest).

(** ** Notions used to state the properties of the machine *)

(** The XP total once every pending timer has run. *)
Definition settledXP (s : State) : Z := totalXP s + foldr Z.add 0 (pendingBonus s).

Definition awardsTotal (awards : list Award) : Z := foldr Z.add 0 (map awardAmount awards).

(** The ledger after a list of awards. *)
Definition ledgerAfter (cq : gset string) (awards : list Award) : gset string :=
  foldl (λ c a, match a with CompletionBonus q _ => c ∪ {[q]} | StepAward _ => c end) cq awards.

Definition questIds (s : State) : list string := map MainQuest.id (mainQuests s).

Definition findQuest (questId : string) (quests : list MainQuest.t) : option MainQuest.t :=
  List.find (λ quest, String.eqb (MainQuest.id quest) questId) quests.



(** A quest with another stored progress. *)
Definition withProgress (progress : Z) (quest : MainQuest.t) : MainQuest.t :=
  MainQuest.mk (MainQuest.id quest) (MainQuest.title quest)
    (MainQuest.description quest) (MainQuest.icon quest) (MainQuest.xp quest)
    (MainQuest.category quest) progress (MainQuest.color quest) (MainQuest.steps quest).

Definition computedProgress (quest : MainQuest.t) : Z :=
  roundPercent (completedCount (MainQuest.steps quest)) (length (MainQuest.steps quest)).

(** [stepId] names no open step of a quest called [questId]: every such
    step is unknown or completed already. *)
Definition noOpenStep (questId stepId : string) (s : State) : Prop :=
  ∀ quest step, In quest (mainQuests s) → MainQuest.id quest = questId →
    In step (MainQuest.steps quest) → Step.id step = stepId → Step.completed step = true.

(** The quest as the callback returns it when no step changes. *)
Definition refreshed (questId : string) (quest : MainQuest.t) : MainQuest.t :=
  if String.eqb (MainQuest.id quest) questId
  then withProgress (computedProgress quest) quest else quest.

(** The ledger holds [q] as soon as a quest of that id has all its steps
    completed. *)
Definition ledgerCovers (q : string) (s : State) : Prop :=
  ∀ quest, In quest (mainQuests s) → MainQuest.id quest = q →
    allCompleted quest = true → q ∈ completedQuests s.

Definition stepIdsDistinct (q : string) (s : State) : Prop :=
  ∀ quest, In quest (mainQuests s) → MainQuest.id quest = q →
    NoDup (map Step.id (MainQuest.steps quest)).

(** ** Queries of the screens *)

(** [getQuestProgress(quest)], the percentage the quest list shows. *)
Definition getQuestProgress (quest : MainQuest.t) : Z :=
  let completedSteps := completedCount (MainQuest.steps quest) in
  roundPercent completedSteps (length (MainQuest.steps quest)).

(** [getFilteredQuests()], for the value of the [selectedCategory] cell. *)
Definition getFilteredQuests (selectedCategory : string) (s : State) : list MainQuest.t :=
  if String.eqb selectedCategory "all" then mainQuests s
  else List.filter (λ quest, String.eqb (MainQuest.category quest) selectedCategory) (mainQuests s).

(** A step of the new list stands where it stood, with its id and text,
    and is completed if it was. *)
Definition stepKept (step step' : Step.t) : Prop :=
  Step.id step' = Step.id step ∧ Step.text step' = Step.text step ∧
  (Step.completed step = true → Step.completed step' = true).

(** A quest of the new list stands where it stood, with everything but
    its progress and the flags of its steps. *)
Definition questKept (quest quest' : MainQuest.t) : Prop :=
  MainQuest.id quest' = MainQuest.id quest ∧ MainQuest.title quest' = MainQuest.title quest ∧
  MainQuest.description quest' = MainQuest.description quest ∧
  MainQuest.icon quest' = MainQuest.icon quest ∧ MainQuest.xp quest' = MainQuest.xp quest ∧
  MainQuest.category quest' = MainQuest.category quest ∧
  MainQuest.color quest' = MainQuest.color quest ∧
  Forall2 stepKept (MainQuest.steps quest) (MainQuest.steps quest').

(** The ids of the daily quests. *)
Definition dailyIds (s : State) : list Z := map DailyQuest.id (dailyQuests s).

(** No award of the state is negative: the XP of every daily quest and
    the completion bonus of every main quest. *)
Definition awardsNonNegative (s : State) : Prop :=
  Forall (λ quest, 0 ≤ DailyQuest.xp quest) (dailyQuests s) ∧
  Forall (λ quest, 0 ≤ questBonus quest) (mainQuests s).

(** The ledger is exact: a quest is in [completedQuests] exactly when all
    its steps are completed. *)
Definition ledgerExact (s : State) : Prop :=
  ∀ quest, In quest (mainQuests s) →
    (MainQuest.id quest ∈ completedQuests s ↔ allCompleted quest = true).

(** The shape of the quest table that the machine relies on: distinct
    quest ids, and in every quest at least one step and distinct step
    ids. *)
Definition wellFormed (s : State) : Prop :=
  NoDup (questIds s) ∧
  ∀ quest, In quest (mainQuests s) →
    MainQuest.steps quest ≠ [] ∧ NoDup (map Step.id (MainQuest.steps quest)).

End Quests.

(** * Durable store: the [Storage] object *)

Module Storage.

(** A Web Storage medium ([localStorage] or [sessionStorage]): its
    items, and whether the host makes a read or a write throw (storage
    disabled, privacy mode, quota exceeded). *)
Record Medium := mkMedium {
  items : gmap string string;
  readThrows : bool;
  writeThrows : bool }.

Record Web := mkWeb { localStorage : Medium; sessionStorage : Medium }.

(** The result of a statement inside a [try] block: it completes, or it
    throws and control passes to the [catch]. *)
Inductive Completion (A : Type) :=
  | Normal (a : A)
  | Thrown.
Arguments Normal {A} a.
Arguments Thrown {A}.

Definition medium_getItem (m : Medium) (key : string) : Completion (option string) :=
  if readThrows m then Thrown else Normal (items m !! key).

Definition medium_setItem (m : Medium) (key value : string) : Completion Medium :=
  if writeThrows m then Thrown
  else Normal (mkMedium (<[key := value]> (items m)) (readThrows m) (writeThrows m)).

(** [if (data)]: neither [null] nor the empty string. *)
Definition truthy (data : option string) : bool :=
  match data with
  | Some value => negb (String.eqb value "")
  | None => false
  end.

(** [Storage.setItem(key, value)]; [now] is [Date.now().toString()].
    A write that succeeded before a later one threw stays written. *)
Definition setItem (key value now : string) (w : Web) : Web :=
  match medium_setItem (localStorage w) key value with
  | Normal ls1 =>
      match medium_setItem (sessionStorage w) (key +:+ "_backup") value with
      | Normal ss1 =>
          match medium_setItem ls1 (key +:+ "_timestamp") now with
          | Normal ls2 => mkWeb ls2 ss1
          | Thrown =>
              match medium_setItem ss1 key value with
              | Normal ss2 => mkWeb ls1 ss2
              | Thrown => mkWeb ls1 ss1
              end
          end
      | Thrown =>
          match medium_setItem (sessionStorage w) key value with
          | Normal ss2 => mkWeb ls1 ss2
          | Thrown => mkWeb ls1 (sessionStorage w)
          end
      end
  | Thrown =>
      match medium_setItem (sessionStorage w) key value with
      | Normal ss2 => mkWeb (localStorage w) ss2
      | Thrown => w
      end
  end.

(** The [try] block of [Storage.getItem(key)]. *)
Definition getItem_try (key : string) (w : Web) : Completion (option string) :=
  match medium_getItem (localStorage w) key with
  | Thrown => Thrown
  | Normal data =>
      if truthy data then
        match medium_getItem (localStorage w) (key +:+ "_timestamp") with
        | Thrown => Thrown
        | Normal _ => Normal data
        end
      else
        match medium_getItem (sessionStorage w) key with
        | Thrown => Thrown
        | Normal data =>
            if truthy data then Normal data
            else
              match medium_getItem (sessionStorage w) (key +:+ "_backup") with
              | Thrown => Thrown
              | Normal data => if truthy data then Normal data else Normal None
              end
        end
  end.

(** [Storage.getItem(key)]: the [catch] turns any exception into [null]. *)
Definition getItem (key : string) (w : Web) : option string :=
  match getItem_try key w with
  | Normal data => data
  | Thrown => None
  end.

(** ** Notions used to state the properties of the store *)

(** [localStorage] disabled (every access throws), [sessionStorage]
    working and empty. *)
Definition localStorageDisabled : Web :=
  mkWeb (mkMedium ∅ true true) (mkMedium ∅ false false).

(** The first truthy value of the three places [getItem] looks at. *)
Definition firstTruthy (key : string) (w : Web) : option string :=
  let primary := items (localStorage w) !! key in
  let live := items (sessionStorage w) !! key in
  let backup := items (sessionStorage w) !! (key +:+ "_backup") in
  if truthy primary then primary
  else if truthy live then live
  else if truthy backup then backup
  else None.

(** [localStorage.clear()]: the items of [localStorage] are gone. *)
Definition localStorageCleared (w : Web) : Web :=
  mkWeb (mkMedium ∅ (readThrows (localStorage w)) (writeThrows (localStorage w)))
    (sessionStorage w).

(** Both media work: no read and no write throws. *)
Definition working (w : Web) : Prop :=
  readThrows (localStorage w) = false ∧ writeThrows (localStorage w) = false ∧
  readThrows (sessionStorage w) = false ∧ writeThrows (sessionStorage w) = false.

(** [localStorage] is full: it can be read but every write throws;
    [sessionStorage] works. *)
Definition primaryFull (w : Web) : Prop :=
  readThrows (localStorage w) = false ∧ writeThrows (localStorage w) = true ∧
  readThrows (sessionStorage w) = false ∧ writeThrows (sessionStorage w) = false.

(** A working store that holds an old save in [localStorage] and
    nothing in [sessionStorage]. *)
Definition usedStore : Web :=
  mkWeb (mkMedium {[ "userProgressData" := "old" ]} false false) (mkMedium ∅ false false).

(** The same store once [localStorage] has filled up. *)
Definition fullStore : Web :=
  mkWeb (mkMedium {[ "userProgressData" := "old" ]} false true) (mkMedium ∅ false false).

End Storage.

(** * Persistence coordinator *)

Module Persistence.

Import Quests.

(** A value as [JSON.parse] returns it, numbers being integers.  An object is the list of its
    properties; a property is read by its first occurrence. *)
#[warnings="-register-all"]
Inductive json :=
  | JNull
  | JBool (b : bool)
  | JNum (n : Z)
  | JStr (s : string)
  | JArr (elements : list json)
  | JObj (properties : list (string * json)).

(** [data[field]]: [None] is [undefined].  Only an object has the
    properties that the coordinator asks for. *)
Fixpoint property (properties : list (string * json)) (field : string) : option json :=
  match properties with
  | [] => None
  | (k, v) :: properties' => if String.eqb k field then Some v else property properties' field
  end.

Definition get (data : json) (field : string) : option json :=
  match data with
  | JObj properties => property properties field
  | _ => None
  end.

(** JavaScript truthiness: [!v] is [negb (truthy v)]. *)
Definition truthy (v : option json) : bool :=
  match v with
  | None => false
  | Some JNull => false
  | Some (JBool b) => b
  | Some (JNum n) => negb (n =? 0)
  | Some (JStr s) => negb (String.eqb s "")
  | Some (JArr _) => true
  | Some (JObj _) => true
  end.

(** [typeof v === 'object']; it holds of [null] too. *)
Definition isObjectType (v : json) : bool :=
  match v with
  | JNull | JArr _ | JObj _ => true
  | _ => false
  end.

Definition isNumber (v : option json) : bool :=
  match v with
  | Some (JNum _) => true
  | _ => false
  end.

Definition requiredFields : list string := ["userProfile"; "dailyQuests"; "mainQuests"].

(** [validateUserData(data)]. *)
Definition validateUserData (data : json) : bool :=
  if negb (truthy (Some data)) || negb (isObjectType data) then false
  else if negb (forallb (λ field, truthy (get data field)) requiredFields) then false
  else if negb (isNumber (v ← get data "userProfile"; get v "totalXP")) then false
  else true.

(** ** The aggregate that [saveUserData] builds *)

Definition themeName (t : ThemeType) : string :=
  match t with light => "light" | dark => "dark" | accent => "accent" end.

Definition stepJSON (step : Step.t) : json :=
  JObj [("id", JStr (Step.id step)); ("text", JStr (Step.text step));
        ("completed", JBool (Step.completed step))].

Definition mainQuestJSON (quest : MainQuest.t) : json :=
  JObj [("id", JStr (MainQuest.id quest)); ("title", JStr (MainQuest.title quest));
        ("description", JStr (MainQuest.description quest));
        ("icon", JStr (MainQuest.icon quest)); ("xp", JNum (MainQuest.xp quest));
        ("category", JStr (MainQuest.category quest));
        ("progress", JNum (MainQuest.progress quest));
        ("color", JStr (MainQuest.color quest));
        ("steps", JArr (map stepJSON (MainQuest.steps quest)))].

Definition dailyQuestJSON (quest : DailyQuest.t) : json :=
  JObj [("id", JNum (DailyQuest.id quest)); ("title", JStr (DailyQuest.title quest));
        ("xp", JNum (DailyQuest.xp quest)); ("completed", JBool (DailyQuest.completed quest));
        ("emoji", JStr (DailyQuest.emoji quest)); ("color", JStr (DailyQuest.color quest));
        ("category", JStr (DailyQuest.category quest))].

Definition userProfileJSON (p : UserProfile.t) : json :=
  JObj [("name", JStr (UserProfile.name p)); ("avatar", JStr (UserProfile.avatar p));
        ("totalXP", JNum (UserProfile.totalXP p)); ("level", JNum (UserProfile.level p));
        ("streak", JNum (UserProfile.streak p)); ("mood", JStr (UserProfile.mood p));
        ("moodText", JStr (UserProfile.moodText p))].

(** The object literal [userData]; [savedAt] is
    [new Date().toISOString()] at the call.  [Array.from(completedQuests)]
    lists the members of the set. *)
Definition userData (savedAt : string) (s : State) : json :=
  JObj [("userProfile", userProfileJSON (userProfile s));
        ("dailyQuests", JArr (map dailyQuestJSON (dailyQuests s)));
        ("mainQuests", JArr (map mainQuestJSON (mainQuests s)));
        ("completedQuests", JArr (map JStr (elements (completedQuests s))));
        ("lastResetDate", JStr (lastResetDate s));
        ("selectedCharacter", JStr (selectedCharacter s));
        ("notifications", JBool (notifications s));
        ("progressReminders", JBool (progressReminders s));
        ("soundEnabled", JBool (soundEnabled s));
        ("vibrationsEnabled", JBool (vibrationsEnabled s));
        ("theme", JStr (themeName (theme s)));
        ("animationsEnabled", JBool (animationsEnabled s));
        ("version", JStr "1.0.1");
        ("savedAt", JStr savedAt)].

(** ** Reading a payload back into the typed state

    The source assigns a property of the payload to a state cell as it
    is.  The state cells of this development are typed, so the
    assignment goes through a reader that recognises a value of the
    cell's type; it answers [None] for a value of another shape, which
    the source would store all the same and which no value of [State]
    describes. *)

Definition asString (v : option json) : option string :=
  match v with Some (JStr s) => Some s | _ => None end.

Definition asNumber (v : option json) : option Z :=
  match v with Some (JNum n) => Some n | _ => None end.

Definition asBool (v : option json) : option bool :=
  match v with Some (JBool b) => Some b | _ => None end.

Definition asArray (v : option json) : option (list json) :=
  match v with Some (JArr l) => Some l | _ => None end.

Definition asTheme (v : option json) : option ThemeType :=
  match v with
  | Some (JStr s) =>
      if String.eqb s "light" then Some light
      else if String.eqb s "dark" then Some dark
      else if String.eqb s "accent" then Some accent
      else None
  | _ => None
  end.

Definition readStep (v : json) : option Step.t :=
  id ← asString (get v "id");
  text ← asString (get v "text");
  completed ← asBool (get v "completed");
  Some (Step.mk id text completed).

Definition readMainQuest (v : json) : option MainQuest.t :=
  id ← asString (get v "id");
  title ← asString (get v "title");
  description ← asString (get v "description");
  icon ← asString (get v "icon");
  xp ← asNumber (get v "xp");
  category ← asString (get v "category");
  progress ← asNumber (get v "progress");
  color ← asString (get v "color");
  steps ← asArray (get v "steps");
  steps ← mapM readStep steps;
  Some (MainQuest.mk id title description icon xp category progress color steps).

Definition readDailyQuest (v : json) : option DailyQuest.t :=
  id ← asNumber (get v "id");
  title ← asString (get v "title");
  xp ← asNumber (get v "xp");
  completed ← asBool (get v "completed");
  emoji ← asString (get v "emoji");
  color ← asString (get v "color");
  category ← asString (get v "category");
  Some (DailyQuest.mk id title xp completed emoji color category).

Definition readUserProfile (v : json) : option UserProfile.t :=
  name ← asString (get v "name");
  avatar ← asString (get v "avatar");
  totalXP ← asNumber (get v "totalXP");
  level ← asNumber (get v "level");
  streak ← asNumber (get v "streak");
  mood ← asString (get v "mood");
  moodText ← asString (get v "moodText");
  Some (UserProfile.mk name avatar totalXP level streak mood moodText).

(** [if (userData[field]) setter(userData[field])]: a falsy or missing
    property leaves the cell as it is. *)
Definition whenTruthy {A} (read : json → option A) (set : A → State → State)
    (v : option json) (s : State) : option State :=
  match v with
  | Some j => if truthy v then a ← read j; Some (set a s) else Some s
  | None => Some s
  end.

(** [if (userData[field] !== undefined) setter(userData[field])]. *)
Definition whenDefined {A} (read : json → option A) (set : A → State → State)
    (v : option json) (s : State) : option State :=
  match v with
  | Some j => a ← read j; Some (set a s)
  | None => Some s
  end.

(** The assignments of [loadUserData] after validation has passed, in
    the order of the source. *)
Definition restore (data : json) (s : State) : option State :=
  s ← whenTruthy readUserProfile
        (λ p s,
           let s := setUserProfile (λ _, p) s in
           if negb (String.eqb (UserProfile.avatar p) "")
           then setSelectedCharacter (UserProfile.avatar p) s else s)
        (get data "userProfile") s;
  s ← whenTruthy (λ v, l ← asArray (Some v); mapM readDailyQuest l)
        (λ l, setDailyQuests (λ _, l)) (get data "dailyQuests") s;
  s ← whenTruthy (λ v, l ← asArray (Some v); mapM readMainQuest l)
        (λ l, setMainQuests (λ _, l)) (get data "mainQuests") s;
  s ← whenTruthy (λ v, l ← asArray (Some v); mapM (λ e, asString (Some e)) l)
        (λ l, setCompletedQuests (λ _, list_to_set l)) (get data "completedQuests") s;
  s ← whenTruthy (λ v, asString (Some v)) setLastResetDate (get data "lastResetDate") s;
  s ← whenDefined (λ v, asBool (Some v)) setNotifications (get data "notifications") s;
  s ← whenDefined (λ v, asBool (Some v)) setProgressReminders (get data "progressReminders") s;
  s ← whenDefined (λ v, asBool (Some v)) setSoundEnabled (get data "soundEnabled") s;
  s ← whenDefined (λ v, asBool (Some v)) setVibrationsEnabled (get data "vibrationsEnabled") s;
  s ← whenTruthy (λ v, asTheme (Some v)) setTheme (get data "theme") s;
  whenDefined (λ v, asBool (Some v)) setAnimationsEnabled (get data "animationsEnabled") s.

(** The state that [restore] builds from the aggregate of [s] over the
    live state [live]: the cells of [s], except that an empty avatar or
    an empty reset date leaves the live cell, and the timer queue, which
    is no part of the aggregate, is the live one. *)
Definition restored (s live : State) : State :=
  mkState (userProfile s)
    (if String.eqb (UserProfile.avatar (userProfile s)) ""
     then selectedCharacter live else UserProfile.avatar (userProfile s))
    (completedQuests s)
    (if String.eqb (lastResetDate s) "" then lastResetDate live else lastResetDate s)
    (notifications s) (progressReminders s) (soundEnabled s) (vibrationsEnabled s)
    (animationsEnabled s) (theme s) (mainQuests s) (dailyQuests s) (pendingBonus live).

(** An aggregate as [saveUserData] builds it, with the main-quest
    collection key left out. *)
Definition withoutMainQuests (data : json) : json :=
  match data with
  | JObj properties => JObj (List.filter (λ kv, negb (String.eqb (fst kv) "mainQuests")) properties)
  | _ => data
  end.

(** ** [saveUserData] and [loadUserData]

    [JSON.stringify] and [JSON.parse] belong to the host.  They are
    parameters here; [parse] answers [None] where [JSON.parse] throws. *)
Section Coordinator.

Variable stringify : json → string.
Variable parse : string → option json.

Definition storageKey : string := "userProgressData".


(** What [loadUserData] does to the live state. *)
Inductive Loaded :=
  | NothingSaved                       (* no saved data was found *)
  | ParseFailed                        (* [JSON.parse] threw *)
  | Rejected (data : json)             (* validation failed, early return *)
  | Restored (data : json) (s : option State).  (* [restore] was run *)

Definition loadUserData (w : Storage.Web) (s : State) : Loaded :=
  match Storage.getItem storageKey w with
  | None => NothingSaved
  | Some savedData =>
      match parse savedData with
      | None => ParseFailed
      | Some data =>
          if negb (validateUserData data) then Rejected data
          else Restored data (restore data s)
      end
  end.

(** The live state after [loadUserData]; [None] as for [restore]. *)
Definition stateAfterLoad (w : Storage.Web) (s : State) : option State :=
  match loadUserData w s with
  | NothingSaved | ParseFailed | Rejected _ => Some s
  | Restored _ s' => s'
  end.

Definition restoreInvoked (w : Storage.Web) (s : State) : bool :=
  match loadUserData w s with
  | Restored _ _ => true
  | _ => false
  end.

End Coordinator.

(** ** Aggregates used to state the properties of the coordinator *)

(** An object that [validateUserData] accepts although its two
    collections are no arrays. *)
Definition oddAggregate : json :=
  JObj [("userProfile", JObj [("totalXP", JNum 0)]);
        ("dailyQuests", JBool true);
        ("mainQuests", JStr "none")].

(** An aggregate with the three required properties only. *)
Definition minimalData (p : UserProfile.t) (daily : list DailyQuest.t)
    (main : list MainQuest.t) : json :=
  JObj [("userProfile", userProfileJSON p);
        ("dailyQuests", JArr (map dailyQuestJSON daily));
        ("mainQuests", JArr (map mainQuestJSON main))].

(** The live state after restoring [minimalData]: the three collections
    replaced, the character following a non-empty avatar, every other
    cell as it was. *)
Definition restoredMinimal (p : UserProfile.t) (daily : list DailyQuest.t)
    (main : list MainQuest.t) (live : State) : State :=
  mkState p
    (if String.eqb (UserProfile.avatar p) "" then selectedCharacter live else UserProfile.avatar p)
    (completedQuests live) (lastResetDate live) (notifications live) (progressReminders live)
    (soundEnabled live) (vibrationsEnabled live) (animationsEnabled live) (theme live)
    main daily (pendingBonus live).

End Persistence.

(** * Daily reset scheduler *)

Module Scheduler.

(** The cutover hour of [shouldResetDailyQuests]. *)
Definition cutoverHour : Z := 4.

(** ** The host's [Date]

    [getKyivTime] and [getCurrentDateString] go through three [Date]
    operations of the host: [toLocaleString] with a time zone,
    [new Date(string)] and [toISOString].  They are modelled by what
    they compute on the calendar; the time zone database is not: the
    wall clock of Kyiv at the instant of the call is the input. *)

(** What [now.toLocaleString("en-US", {timeZone: "Europe/Kiev"})]
    prints: the calendar date of Kyiv at the instant [now], as a count of
    days since 1970-01-01, and its time of day.  The string has no
    milliseconds and no zone. *)
Record WallClock := mkWallClock {
  day : Z;
  hours : Z;
  minutes : Z;
  seconds : Z
}.

(** A well-formed time of day. *)
Definition validClock (clock : WallClock) : Prop :=
  0 ≤ hours clock < 24 ∧ 0 ≤ minutes clock < 60 ∧ 0 ≤ seconds clock < 60.

(** A [Date] object is its time value, here in seconds since
    1970-01-01T00:00:00Z. *)
Definition Date := Z.

(** The day count of a date of the proleptic Gregorian calendar. *)
Definition daysFromCivil (year month dayOfMonth : Z) : Z :=
  let y := if month <=? 2 then year - 1 else year in
  let era := y / 400 in
  let yoe := y - era * 400 in
  let mp := if 2 <? month then month - 3 else month + 9 in
  let doy := (153 * mp + 2) / 5 + dayOfMonth - 1 in
  let doe := yoe * 365 + yoe / 4 - yoe / 100 + doy in
  era * 146097 + doe - 719468.

(** The date (year, month, day of month) of a day count. *)
Definition civilFromDays (days : Z) : Z * Z * Z :=
  let z := days + 719468 in
  let era := z / 146097 in
  let doe := z - era * 146097 in
  let yoe := (doe - doe / 1460 + doe / 36524 - doe / 146096) / 365 in
  let doy := doe - (365 * yoe + yoe / 4 - yoe / 100) in
  let mp := (5 * doy + 2) / 153 in
  let dayOfMonth := doy - (153 * mp + 2) / 5 + 1 in
  let month := if mp <? 10 then mp + 3 else mp - 9 in
  let year := yoe + era * 400 in
  (if month <=? 2 then year + 1 else year, month, dayOfMonth).

Fixpoint zeros (count : nat) : string :=
  match count with
  | O => ""
  | S count => "0" +:+ zeros count
  end.

(** [String(n).padStart(width, "0")]. *)
Definition padStart (width : nat) (n : Z) : string :=
  let digits := pretty n in
  zeros (width - String.length digits) +:+ digits.

(** The date part [YYYY-MM-DD] of an ISO 8601 string, for the years 0 to
    9999. *)
Definition isoDate (days : Z) : string :=
  let '(year, month, dayOfMonth) := civilFromDays days in
  padStart 4 year +:+ "-" +:+ padStart 2 month +:+ "-" +:+ padStart 2 dayOfMonth.

(** The seconds from 1970-01-01T00:00:00 to a wall-clock time, both read
    on the same clock. *)
Definition localSeconds (clock : WallClock) : Z :=
  day clock * 86400 + hours clock * 3600 + minutes clock * 60 + seconds clock.

(** [new Date(string)] on a date-time string without a zone: the string
    is read as local time of the host.  [hostOffset] is the host's offset
    from UTC in minutes, positive east of Greenwich (the negative of
    [getTimezoneOffset()]). *)
Definition parseLocal (hostOffset : Z) (clock : WallClock) : Date :=
  localSeconds clock - hostOffset * 60.

(** [date.getHours()]: the hour of [date] in local time of the host. *)
Definition getHours (hostOffset : Z) (date : Date) : Z :=
  ((date + hostOffset * 60) mod 86400) / 3600.

(** [date.toISOString().split('T')[0]]: [toISOString] prints UTC. *)
Definition toISODate (date : Date) : string := isoDate (date / 86400).

(** ** The scheduler, lines 276-303 and 3639-3659 *)

(** [getKyivTime()], lines 276-280.  [now] is the Kyiv wall clock that
    [toLocaleString] prints for [new Date()]. *)
Definition getKyivTime (hostOffset : Z) (now : WallClock) : Date :=
  let kyivTime := parseLocal hostOffset now in
  kyivTime.

(** [getCurrentDateString()], lines 282-285. *)
Definition getCurrentDateString (hostOffset : Z) (now : WallClock) : string :=
  let kyivTime := getKyivTime hostOffset now in
  toISODate kyivTime.

(** [shouldResetDailyQuests()], lines 287-296.  [lastResetDate] is the
    state cell as the closure holds it. *)
Definition shouldResetDailyQuests (lastResetDate : string) (hostOffset : Z)
    (now : WallClock) : bool :=
  let currentDate := getCurrentDateString hostOffset now in
  let currentTime := getKyivTime hostOffset now in
  if negb (String.eqb lastResetDate currentDate)
     && (cutoverHour <=? getHours hostOffset currentTime)
  then true else false.

(** The callback of [setInterval], lines 3651-3655: [if
    (shouldResetDailyQuests()) resetDailyQuests()].  [lastResetDate] is
    the cell of the render that ran the effect; [s] is the state the
    setters of [resetDailyQuests] apply to.  The calls of the callback
    read the clock within the same second. *)
Definition intervalTick (hostOffset : Z) (now : WallClock) (lastResetDate : string)
    (s : Quests.State) : Quests.State :=
  if shouldResetDailyQuests lastResetDate hostOffset now
  then Quests.resetDailyQuests (getCurrentDateString hostOffset now) s
  else s.

(** One run of the effect, lines 3640-3648: at launch and after every
    change of [lastResetDate].  [lastResetDate] is the cell of the render
    that scheduled the run: [setLastResetDate] does not change what
    [shouldResetDailyQuests] sees during the run.  [s] is the state the
    setters apply to; at launch it holds what [loadUserData] has just
    restored, while the cell is still the initial ['']. *)
Definition resetEffect (hostOffset : Z) (now : WallClock) (lastResetDate : string)
    (s : Quests.State) : Quests.State :=
  let s := if String.eqb lastResetDate ""
           then Quests.setLastResetDate (getCurrentDateString hostOffset now) s
           else s in
  if shouldResetDailyQuests lastResetDate hostOffset now
  then Quests.resetDailyQuests (getCurrentDateString hostOffset now) s
  else s.

(** ** The check as the specification words it *)

(** [currentDateKey(now)]: the calendar date of [now] in the fixed time
    zone. *)
Definition currentDateKey_as_specified (now : WallClock) : string := isoDate (day now).

(** [hourOfDay(now)]: the hour of [now] in the fixed time zone. *)
Definition hourOfDay_as_specified (now : WallClock) : Z := hours now.

(** [isResetDue(lastResetDate, now)]. *)
Definition isResetDue_as_specified (lastResetDate : string) (now : WallClock) : bool :=
  negb (String.eqb (currentDateKey_as_specified now) lastResetDate)
  && (cutoverHour <=? hourOfDay_as_specified now).

(** Offsets of two hosts: Asia/Tokyo (UTC+9) and America/New_York in
    winter (UTC-5). *)
Definition tokyo : Z := 540.
Definition newYork : Z := -300.

End Scheduler.

(** * Entries of the source's tables and the start state *)

Module Table.

Import Quests.

(** [Array.from({length: n}, (_, i) => f(i))]. *)
Definition arrayFrom {A} (n : nat) (f : nat → A) : list A := map f (seq 0 n).

(** The entry ['career-1'] of the initial [mainQuests] array. *)
Definition career_1_texts : list string :=
    ["Обрати спеціальність";
     "Подати документи";
     "Пройти вступні іспити";
     "Отримати студентський квиток";
     "Пройти першу лекцію";
     "Познайомитися з групою";
     "Скласти перший модуль";
     "Пройти першу сесію";
     "Написати курсову";
     "Пройти практику";
     "Виступити на семінарі";
     "Пройти другу сесію";
     "Почати дипломну роботу";
     "Провести дослідження";
     "Написати диплом";
     "Підготувати презентацію";
     "Захистити диплом";
     "Отримати диплом";
     "Сфотографуватися у мантії 🎓";
     "Відсвяткувати випуск"].

Definition career_1 : MainQuest.t :=
  MainQuest.mk "career-1" "Закінчити університет" "Повний шлях від вступу до диплома" "🎓"
    1000 "career" 0 "#3b82f6"
    (arrayFrom 20 (λ i, Step.mk ("c1-s" +:+ pretty (i + 1)%nat)
                                (nth i career_1_texts "") false)).

(** The entry ['career-8'] of the initial [mainQuests] array; it is one of
    the entries whose [progress] is not [0] although no step is
    completed. *)
Definition career_8_texts : list string :=
    ["Вибрати програму";
     "Подати документи";
     "Скласти вступні іспити";
     "Отримати прийом";
     "Ознайомитися з програмою";
     "Пройти перший курс";
     "Вибрати наукового керівника";
     "Почати дослідження";
     "Написати першу роботу";
     "Виступити на конференції";
     "Опублікувати статтю";
     "Пройти всі курси";
     "Скласти кваліфікаційний іспит";
     "Написати дисертацію";
     "Захистити дисертацію";
     "Отримати диплом";
     "Продовжити в аспірантурі";
     "Завершити аспірантуру";
     "Отримати ступінь";
     "Почати викладацьку діяльність"].

Definition career_8 : MainQuest.t :=
  MainQuest.mk "career-8" "Пройти магістратуру / аспірантуру" "Поглиблене навчання та дослідження" "🏫"
    1000 "career" 5 "#10b981"
    (arrayFrom 20 (λ i, Step.mk ("c8-s" +:+ pretty (i + 1)%nat)
                                (nth i career_8_texts "") false)).

(** The first two entries of the initial [dailyQuests] array. *)
Definition daily_1 : DailyQuest.t :=
  DailyQuest.mk 1 "Не перевіряти телефон перші 30 хв після пробудження" 100 false
    "📱" "#6b7280" "morning".

Definition daily_2 : DailyQuest.t :=
  DailyQuest.mk 2 "Зробити легку розтяжку" 80 false "🧘" "#8b5cf6" "morning".

(** The initial values of the state cells, for given quest tables. *)
Definition initialState (main : list MainQuest.t) (daily : list DailyQuest.t) : State :=
  mkState (UserProfile.mk "Гравець" "🙂" 0 0 0 "💪" "У фокусі!")
    "🙂" ∅ "" true true false true true light main daily [].

(** The start state with the tables cut down to the entries above. *)
Definition smallState : State := initialState [career_1; career_8] [daily_1; daily_2].

(** The twenty step ids of ['career-1'], in table order. *)
Definition career_1_stepIds : list string := map Step.id (MainQuest.steps career_1).

(** A session on ['career-1']: its twenty steps toggled in reverse table
    order, then all of them toggled again in table order. *)
Definition replay : list (string * string) :=
  map (λ stepId, ("career-1", stepId)) (rev career_1_stepIds ++ career_1_stepIds).

(** A session that mixes the operations. *)
Definition sampleSession : list Action :=
  [ToggleStep "career-1" "c1-s3"; CompleteDaily 2; ResetAll; TimersFire;
   ToggleStep "career-1" "c1-s3"; ResetDaily "2024-01-02"; CompleteDaily 2].

End Table.

(** * Properties of the progression calculator *)

Module ProgressionFacts.

Import Progression.

(** ** The loop of [getLevel] over any table *)

Section Loop.

Variable xp : Z.

(** An early return at [i + k + 1] happens at the first index [k] whose
    running total exceeds [xp]. *)
Lemma getLevel_from_first rest : ∀ i acc (k : nat),
  (k < length rest)%nat →
  xp < acc + sumFirst rest (S k) →
  (∀ j : nat, (j < k)%nat → acc + sumFirst rest (S j) ≤ xp) →
  getLevel_from rest i acc xp = Some (i + Z.of_nat k + 1).
Proof.
  induction rest as [|c rest IH]; intros i acc k Hk Hlt Hbefore; simpl in Hk.
  - lia.
  - cbn [getLevel_from]. destruct k as [|k].
    + cbn [sumFirst] in Hlt.
      replace (c + 0) with c in Hlt by lia.
      destruct (Z.ltb_spec xp (acc + c)); [f_equal; lia | lia].
    + pose proof (Hbefore O ltac:(lia)) as H0. cbn [sumFirst] in H0.
      destruct (Z.ltb_spec xp (acc + c)); [lia |].
      rewrite (IH (i + 1) (acc + c) k).
      * f_equal. lia.
      * lia.
      * change (sumFirst (c :: rest) (S (S k))) with (c + sumFirst rest (S k)) in Hlt. lia.
      * intros j Hj. pose proof (Hbefore (S j) ltac:(lia)) as Hj'.
        change (sumFirst (c :: rest) (S (S j))) with (c + sumFirst rest (S j)) in Hj'. lia.
Qed.

(** The loop runs off the end exactly when no running total exceeds [xp]. *)
Lemma getLevel_from_none rest : ∀ i acc,
  (∀ j : nat, (j < length rest)%nat → acc + sumFirst rest (S j) ≤ xp) →
  getLevel_from rest i acc xp = None.
Proof.
  induction rest as [|c rest IH]; intros i acc Hall; [reflexivity |].
  cbn [getLevel_from].
  pose proof (Hall O ltac:(simpl; lia)) as H0. cbn [sumFirst] in H0.
  destruct (Z.ltb_spec xp (acc + c)); [lia |].
  apply IH. intros j Hj. pose proof (Hall (S j) ltac:(simpl; lia)) as Hj'.
  change (sumFirst (c :: rest) (S (S j))) with (c + sumFirst rest (S j)) in Hj'. lia.
Qed.

(** Conversely, a returned level names such a first index. *)
Lemma getLevel_from_some rest : ∀ i acc level,
  getLevel_from rest i acc xp = Some level →
  ∃ k : nat, (k < length rest)%nat ∧ level = i + Z.of_nat k + 1 ∧
    xp < acc + sumFirst rest (S k) ∧
    (∀ j : nat, (j < k)%nat → acc + sumFirst rest (S j) ≤ xp).
Proof.
  induction rest as [|c rest IH]; intros i acc level H; [discriminate |].
  cbn [getLevel_from] in H.
  destruct (Z.ltb_spec xp (acc + c)) as [Hlt | Hge].
  - injection H as <-. exists O. cbn [sumFirst length].
    split_and!; [lia | lia | lia | intros; lia].
  - apply IH in H as (k & Hk & -> & Hlt & Hbefore).
    exists (S k). cbn [length]. split_and!; [lia | lia | |].
    + change (sumFirst (c :: rest) (S (S k))) with (c + sumFirst rest (S k)). lia.
    + intros [|j] Hj.
      * cbn [sumFirst]. lia.
      * change (sumFirst (c :: rest) (S (S j))) with (c + sumFirst rest (S j)).
        pose proof (Hbefore j ltac:(lia)). lia.
Qed.

End Loop.

Lemma levelFrom_bounds rest : ∀ i acc xp,
  i + Z.min 1 (Z.of_nat (length rest)) ≤ levelFrom rest i acc xp ≤ i + Z.of_nat (length rest).
Proof.
  unfold levelFrom.
  induction rest as [|c rest IH]; intros i acc xp; cbn [getLevel_from length].
  - lia.
  - destruct (Z.ltb_spec xp (acc + c)); [lia |].
    specialize (IH (i + 1) (acc + c) xp).
    destruct (getLevel_from rest (i + 1) (acc + c) xp); lia.
Qed.

Lemma levelFrom_mono rest : ∀ i acc xp xp',
  xp ≤ xp' → levelFrom rest i acc xp ≤ levelFrom rest i acc xp'.
Proof.
  induction rest as [|c rest IH]; intros i acc xp xp' Hle.
  - reflexivity.
  - pose proof (IH (i + 1) (acc + c) xp xp' Hle) as IH'.
    pose proof (levelFrom_bounds rest (i + 1) (acc + c) xp') as Hb.
    unfold levelFrom in *. cbn [getLevel_from length].
    destruct (Z.ltb_spec xp (acc + c)), (Z.ltb_spec xp' (acc + c)); try lia.
    + destruct (getLevel_from rest (i + 1) (acc + c) xp'); lia.
    + destruct (getLevel_from rest (i + 1) (acc + c) xp),
               (getLevel_from rest (i + 1) (acc + c) xp'); lia.
Qed.

Lemma getLevel_in_levelFrom table xp : getLevel_in table xp = levelFrom table 0 0 xp.
Proof. unfold getLevel_in, levelFrom. destruct (getLevel_from table 0 0 xp); lia. Qed.

(** ** Running totals of a table of positive costs *)

Lemma sumFirst_step table : ∀ n : nat,
  (n < length table)%nat →
  sumFirst table (S n) = sumFirst table n + nth n table 0.
Proof.
  induction table as [|c table IH]; intros n Hn; simpl in Hn; [lia |].
  destruct n as [|n].
  - cbn [sumFirst nth]. destruct table; lia.
  - change (sumFirst (c :: table) (S (S n))) with (c + sumFirst table (S n)).
    rewrite IH by lia. cbn [sumFirst nth]. lia.
Qed.

Lemma sumFirst_mono table :
  Forall (λ c, 0 < c) table →
  ∀ n m : nat, (n ≤ m)%nat → sumFirst table n ≤ sumFirst table m.
Proof.
  induction 1 as [|c table Hc _ IH]; intros n m Hnm.
  - destruct n, m; simpl; lia.
  - destruct n as [|n], m as [|m]; cbn [sumFirst]; try lia.
    + specialize (IH O m ltac:(lia)). destruct m; cbn [sumFirst] in *; lia.
    + specialize (IH n m ltac:(lia)). lia.
Qed.

Lemma levelTable_positive : Forall (λ c, 0 < c) levelTable.
Proof. unfold levelTable. repeat constructor. Qed.

Lemma levelTable_length : length levelTable = 100%nat.
Proof. reflexivity. Qed.

Lemma nth_positive table (n : nat) :
  Forall (λ c, 0 < c) table → (n < length table)%nat → 0 < nth n table 0.
Proof.
  intros Hpos Hn. rewrite Forall_forall in Hpos. apply Hpos.
  apply list_elem_of_In, nth_In, Hn.
Qed.

(** ** The level of an XP total *)

Lemma getLevel_bounds xp : 1 ≤ getLevel xp ≤ 100.
Proof.
  unfold getLevel. rewrite getLevel_in_levelFrom.
  pose proof (levelFrom_bounds levelTable 0 0 xp) as H.
  rewrite levelTable_length in H. lia.
Qed.

Lemma getLevel_mono xp xp' : xp ≤ xp' → getLevel xp ≤ getLevel xp'.
Proof.
  intros H. unfold getLevel. rewrite !getLevel_in_levelFrom.
  by apply levelFrom_mono.
Qed.

(** Below the cap, [xp] lies in the band of its level: at or above the
    total cost of the levels before, below the total through it. *)
Lemma getLevel_band xp :
  0 ≤ xp → getLevel xp < 100 →
  ∃ k : nat, (k < 99)%nat ∧ getLevel xp = Z.of_nat k + 1 ∧
    sumFirst levelTable k ≤ xp < sumFirst levelTable (S k).
Proof.
  intros Hxp Hlt. unfold getLevel, getLevel_in in *.
  destruct (getLevel_from levelTable 0 0 xp) as [level|] eqn:E.
  - apply getLevel_from_some in E as (k & Hk & -> & Hup & Hbefore).
    rewrite levelTable_length in Hk.
    exists k. split_and!; [lia | lia | | lia].
    destruct k as [|k]; [cbn [sumFirst]; lia |].
    pose proof (Hbefore k ltac:(lia)). lia.
  - rewrite levelTable_length in Hlt. lia.
Qed.

(** Every table read of the calculator is inside the table. *)
Lemma getLevel_index_in_table xp :
  (0 ≤ getLevel xp - 1 < 100) ∧ (getLevel xp < 100 → 0 ≤ getLevel xp < 100).
Proof. pose proof (getLevel_bounds xp). lia. Qed.

(** C4.  [getLevel] walks the hundred-entry table accumulating the costs
    and returns [i + 1] for the first index [i] whose running total
    exceeds [xp]; it returns [100] when [xp] reaches the sum of the whole
    table; so the level lies between [1] and [100], never decreases when
    [xp] grows, and with [levelTable[0] = 500] the levels of [0], [499]
    and [500] are [1], [1] and [2].  (It holds of every integer [xp], the
    non-negative ones in particular.) *)
Theorem getLevel_spec (xp : Z) :
  length levelTable = 100%nat ∧
  (∀ i : nat, (i < 100)%nat →
     xp < sumFirst levelTable (S i) →
     (∀ j : nat, (j < i)%nat → sumFirst levelTable (S j) ≤ xp) →
     getLevel xp = Z.of_nat i + 1) ∧
  (sumFirst levelTable 100 ≤ xp → getLevel xp = 100) ∧
  1 ≤ getLevel xp ≤ 100 ∧
  (∀ xp' : Z, xp ≤ xp' → getLevel xp ≤ getLevel xp') ∧
  (tableAt levelTable 0 = 500 ∧ getLevel 0 = 1 ∧ getLevel 499 = 1 ∧ getLevel 500 = 2).
Proof.
  split; [reflexivity |]. split; [| split; [| split; [| split]]].
  - intros i Hi Hlt Hbefore. unfold getLevel, getLevel_in.
    rewrite (getLevel_from_first xp levelTable 0 0 i); [lia | by rewrite levelTable_length | lia |].
    intros j Hj. specialize (Hbefore j Hj). lia.
  - intros Htotal. unfold getLevel, getLevel_in.
    rewrite getLevel_from_none; [reflexivity |].
    intros j Hj. rewrite levelTable_length in Hj.
    pose proof (sumFirst_mono levelTable levelTable_positive (S j) 100 ltac:(lia)). lia.
  - apply getLevel_bounds.
  - intros xp'. apply getLevel_mono.
  - split_and!; reflexivity.
Qed.

(** ** The progress percentage *)

Lemma getLevelProgress_at_cap xp : 100 ≤ getLevel xp → getLevelProgress xp = 100%Q.
Proof.
  intros H. unfold getLevelProgress.
  destruct (Z.leb_spec 100 (getLevel xp)); [reflexivity | lia].
Qed.

Lemma getLevelProgress_below_cap xp :
  getLevel xp < 100 →
  getLevelProgress xp =
    Qmin 100 (inject_Z (xp - sumFirst levelTable (Z.to_nat (getLevel xp - 1)))
              / inject_Z (tableAt levelTable (getLevel xp - 1)) * 100).
Proof.
  intros H. unfold getLevelProgress, totalXpForLevel.
  destruct (Z.leb_spec 100 (getLevel xp)); [lia | reflexivity].
Qed.

(** In exact arithmetic the source's [(a / b) * 100] is the
    specification's [100 × a / b]. *)
Lemma percent_forms (a b : Q) : (a / b * 100 == 100 * a / b)%Q.
Proof. unfold Qdiv. ring. Qed.

(** C5, as amended.  For every integer [xp >= 0] the progress percentage
    lies in [[0, 100]].  For every integer [xp], of either sign, it is
    [100] when the level is at least [100], and otherwise
    [min(100, 100 × xpIntoLevel / cost[level - 1])] with [xpIntoLevel]
    being [xp] minus the total cost of the levels before the current one;
    [getLevelProgress 250] is [50]. *)
Theorem getLevelProgress_spec (xp : Z) :
  0 ≤ xp →
  (0 <= getLevelProgress xp <= 100)%Q ∧
  (∀ y : Z,
     (100 ≤ getLevel y → getLevelProgress y = 100%Q) ∧
     (getLevel y < 100 →
      (getLevelProgress y ==
         Qmin 100 (100 * inject_Z (y - sumFirst levelTable (Z.to_nat (getLevel y - 1)))
                   / inject_Z (tableAt levelTable (getLevel y - 1))))%Q)) ∧
  (getLevelProgress 250 == 50)%Q.
Proof.
  intros Hxp. split_and!.
  - destruct (Z.le_gt_cases 100 (getLevel xp)) as [Hcap | Hlow].
    + rewrite getLevelProgress_at_cap by done. discriminate.
    + rewrite getLevelProgress_below_cap by done.
      destruct (getLevel_band xp Hxp Hlow) as (k & Hk & -> & Hlo & Hhi).
      replace (Z.of_nat k + 1 - 1) with (Z.of_nat k) by lia.
      rewrite Nat2Z.id. unfold tableAt.
      destruct (Z.ltb_spec (Z.of_nat k) 0); [lia |]. rewrite Nat2Z.id.
      rewrite sumFirst_step in Hhi by (rewrite levelTable_length; lia).
      pose proof (nth_positive levelTable k levelTable_positive
                    ltac:(rewrite levelTable_length; lia)) as Hpos.
      apply Q.min_glb; [done |].
      apply Qmult_le_0_compat; [| done].
      apply Qle_shift_div_l.
      * rewrite <- (Zlt_Qlt 0). exact Hpos.
      * rewrite Qmult_0_l, <- (Zle_Qle 0). lia.
  - destruct (Z.le_gt_cases 100 (getLevel xp)) as [Hcap | Hlow].
    + rewrite getLevelProgress_at_cap by done. discriminate.
    + rewrite getLevelProgress_below_cap by done. apply Q.le_min_l.
  - intros y. split; [apply getLevelProgress_at_cap |].
    intros Hlow. rewrite getLevelProgress_below_cap by done.
    apply Q.min_compat; [reflexivity | apply percent_forms].
  - reflexivity.
Qed.

(** At [xp = 30], a state the machine reaches after one step award. *)
Lemma getLevelProgress_spec_witness :
  0 ≤ 30 ∧ (0 <= getLevelProgress 30 <= 100)%Q ∧ (getLevelProgress 30 == 6)%Q.
Proof.
  split; [lia |]. split; [apply (getLevelProgress_spec 30); lia | reflexivity].
Defined.

(** C5, as stated, fails below zero: the source clamps from above only,
    so a negative total gives a negative percentage. *)
Lemma getLevelProgress_negative_xp :
  (getLevelProgress (-500) == -100)%Q ∧ ¬ (0 <= getLevelProgress (-500) <= 100)%Q.
Proof.
  split; [reflexivity |]. intros [H _]. vm_compute in H. by apply H.
Qed.

(** ** XP to the next level *)

(** What [getXPToNextLevel] computes below the cap: the table entry at
    index [level] (the cost of the level after the current one), minus
    the whole of [xp]. *)
Lemma getXPToNextLevel_below_cap xp :
  getLevel xp < 100 → getXPToNextLevel xp = tableAt levelTable (getLevel xp) - xp.
Proof.
  intros H. unfold getXPToNextLevel.
  destruct (Z.leb_spec 100 (getLevel xp)); [lia | reflexivity].
Qed.

Lemma getXPToNextLevel_at_cap xp : 100 ≤ getLevel xp → getXPToNextLevel xp = 0.
Proof.
  intros H. unfold getXPToNextLevel.
  destruct (Z.leb_spec 100 (getLevel xp)); [reflexivity | lia].
Qed.

(** C6.  The source against the specification at [xp = 0] and at
    [xp = 600]: with no XP at all the player is [500] short of level 2,
    and [getXPToNextLevel] answers [540]; with [600] XP (level 2, whose
    boundary is at [1040]) the player is [440] short, and it answers
    [-17]. *)
Theorem getXPToNextLevel_misses_boundary :
  (getLevel 0 = 1 ∧ xpToNextLevel_as_specified 0 = 500 ∧ getXPToNextLevel 0 = 540) ∧
  (getLevel 600 = 2 ∧ xpToNextLevel_as_specified 600 = 440 ∧ getXPToNextLevel 600 = -17).
Proof. split_and!; reflexivity. Qed.

End ProgressionFacts.

(** * Properties of the quest state machine *)

Module QuestFacts.

Import Quests.

(** ** Steps *)

Lemma updateStep_id stepId step : Step.id (updateStep stepId step) = Step.id step.
Proof. unfold updateStep. by destruct (_ && _). Qed.

Lemma updateStep_idem stepId step :
  updateStep stepId (updateStep stepId step) = updateStep stepId step.
Proof.
  destruct step as [i t c]. unfold updateStep. cbn.
  destruct (String.eqb i stepId) eqn:E, c; cbn; by rewrite ?E.
Qed.

(** A step stays completed, and a step addressed by the call ends completed. *)
Lemma updateStep_completed stepId step :
  Step.completed (updateStep stepId step)
  = Step.completed step || String.eqb (Step.id step) stepId.
Proof.
  destruct step as [i t c]. unfold updateStep. cbn.
  by destruct (String.eqb i stepId), c.
Qed.

Lemma updateStep_unchanged stepId step :
  (String.eqb (Step.id step) stepId = true → Step.completed step = true) →
  updateStep stepId step = step.
Proof.
  intros H. unfold updateStep.
  destruct (String.eqb (Step.id step) stepId); [| reflexivity].
  by rewrite H.
Qed.

(** What [find] sees in the updated steps is completed. *)
Lemma find_updated_completed stepId steps step :
  List.find (λ s, String.eqb (Step.id s) stepId) (map (updateStep stepId) steps) = Some step →
  Step.completed step = true.
Proof.
  induction steps as [|s steps IH]; [discriminate |].
  cbn [map List.find]. rewrite updateStep_id.
  destruct (String.eqb (Step.id s) stepId) eqn:E; [| exact IH].
  intros [= <-]. rewrite updateStep_completed, E. apply orb_true_r.
Qed.

Lemma map_updateStep_unchanged stepId steps :
  (∀ step, In step steps → String.eqb (Step.id step) stepId = true → Step.completed step = true) →
  map (updateStep stepId) steps = steps.
Proof.
  intros H. induction steps as [|s steps IH]; [reflexivity |].
  cbn [map]. rewrite updateStep_unchanged, IH; [reflexivity | |].
  - intros step Hin. apply H. by right.
  - apply H. by left.
Qed.

Lemma map_updateStep_idem stepId steps :
  map (updateStep stepId) (map (updateStep stepId) steps) = map (updateStep stepId) steps.
Proof. rewrite map_map. apply map_ext, updateStep_idem. Qed.

Lemma find_in {A} (p : A → bool) l x : List.find p l = Some x → In x l ∧ p x = true.
Proof. apply find_some. Qed.

(** ** One quest under the callback *)

Lemma toggleInQuest_other cq questId stepId quest :
  String.eqb (MainQuest.id quest) questId = false →
  toggleInQuest cq questId stepId quest = (quest, []).
Proof. intros H. unfold toggleInQuest. by rewrite H. Qed.

Lemma toggleInQuest_id cq questId stepId quest :
  MainQuest.id (fst (toggleInQuest cq questId stepId quest)) = MainQuest.id quest.
Proof. unfold toggleInQuest. by destruct (String.eqb _ _). Qed.

Lemma toggleInQuest_bonus cq questId stepId quest :
  questBonus (fst (toggleInQuest cq questId stepId quest)) = questBonus quest.
Proof. unfold toggleInQuest. by destruct (String.eqb _ _). Qed.

Lemma toggleInQuest_steps cq questId stepId quest :
  MainQuest.steps (fst (toggleInQuest cq questId stepId quest))
  = if String.eqb (MainQuest.id quest) questId
    then map (updateStep stepId) (MainQuest.steps quest)
    else MainQuest.steps quest.
Proof. unfold toggleInQuest. by destruct (String.eqb _ _). Qed.

Lemma toggleInQuest_awards cq questId stepId quest :
  snd (toggleInQuest cq questId stepId quest)
  = if String.eqb (MainQuest.id quest) questId
    then questAwards cq questId stepId quest (map (updateStep stepId) (MainQuest.steps quest))
    else [].
Proof. unfold toggleInQuest. by destruct (String.eqb _ _). Qed.

(** The three shapes of the awards of one quest. *)
Lemma questAwards_cases cq questId stepId quest :
  let updatedSteps := map (updateStep stepId) (MainQuest.steps quest) in
  let awards := questAwards cq questId stepId quest updatedSteps in
  (awards = [] ∧
   ∀ step, List.find (λ s, String.eqb (Step.id s) stepId) (MainQuest.steps quest) = Some step →
           Step.completed step = true) ∨
  (∃ step, List.find (λ s, String.eqb (Step.id s) stepId) (MainQuest.steps quest) = Some step ∧
           Step.completed step = false) ∧
  ((awards = [StepAward stepXP] ∧
    (completedCount updatedSteps ≠ length (MainQuest.steps quest) ∨ questId ∈ cq)) ∨
   (awards = [StepAward stepXP; CompletionBonus questId (questBonus quest)] ∧
    completedCount updatedSteps = length (MainQuest.steps quest) ∧ questId ∉ cq)).
Proof.
  intros updatedSteps awards. subst awards. unfold questAwards.
  destruct (List.find _ (MainQuest.steps quest)) as [step|] eqn:Efind.
  - destruct (Step.completed step) eqn:Ec; cbn [negb].
    + left. split; [reflexivity |]. by intros ? [= <-].
    + right. split; [by exists step |].
      destruct (Nat.eqb_spec (completedCount updatedSteps) (length (MainQuest.steps quest))) as [Heq | Hne];
        cbn [andb].
      * destruct (decide (questId ∈ cq)) as [Hin | Hnin].
        -- rewrite bool_decide_eq_true_2 by done. cbn. left. split; [reflexivity | by right].
        -- rewrite bool_decide_eq_false_2 by done. cbn. right. by split_and!.
      * left. split; [reflexivity | by left].
  - left. split; [reflexivity | discriminate].
Qed.

(** The callback applied a second time changes nothing and awards nothing. *)
Lemma toggleInQuest_again cq cq' questId stepId quest :
  toggleInQuest cq' questId stepId (fst (toggleInQuest cq questId stepId quest))
  = (fst (toggleInQuest cq questId stepId quest), []).
Proof.
  unfold toggleInQuest at 2 3.
  destruct (String.eqb (MainQuest.id quest) questId) eqn:E; cbn [fst].
  - unfold toggleInQuest. cbn [MainQuest.id MainQuest.steps MainQuest.title
      MainQuest.description MainQuest.icon MainQuest.xp MainQuest.category MainQuest.color].
    rewrite E, map_updateStep_idem, !length_map. f_equal.
    unfold questAwards. cbn [MainQuest.steps].
    destruct (List.find _ (map (updateStep stepId) (MainQuest.steps quest))) as [step|] eqn:Ef; [| reflexivity].
    apply find_updated_completed in Ef. by rewrite Ef.
  - by apply toggleInQuest_other.
Qed.


(** ** The state after a toggle *)

Lemma foldr_add_app (l k : list Z) :
  foldr Z.add 0 (l ++ k) = foldr Z.add 0 l + foldr Z.add 0 k.
Proof. induction l as [|x l IH]; cbn [foldr app]; lia. Qed.

Lemma applyAwards_mainQuests awards : ∀ s,
  mainQuests (foldl applyAward s awards) = mainQuests s.
Proof.
  induction awards as [|a awards IH]; intros s; [reflexivity |].
  cbn [foldl]. rewrite IH. by destruct a.
Qed.

Lemma applyAwards_dailyQuests awards : ∀ s,
  dailyQuests (foldl applyAward s awards) = dailyQuests s.
Proof.
  induction awards as [|a awards IH]; intros s; [reflexivity |].
  cbn [foldl]. rewrite IH. by destruct a.
Qed.

Lemma applyAwards_completedQuests awards : ∀ s,
  completedQuests (foldl applyAward s awards) = ledgerAfter (completedQuests s) awards.
Proof.
  unfold ledgerAfter.
  induction awards as [|a awards IH]; intros s; [reflexivity |].
  cbn [foldl]. rewrite IH. by destruct a.
Qed.

Lemma applyAwards_settledXP awards : ∀ s,
  settledXP (foldl applyAward s awards) = settledXP s + awardsTotal awards.
Proof.
  unfold awardsTotal.
  induction awards as [|a awards IH]; intros s; cbn [foldl map foldr]; [lia |].
  rewrite IH. destruct a as [amount | q amount]; unfold settledXP, totalXP; cbn.
  - lia.
  - rewrite foldr_add_app. cbn. lia.
Qed.

Lemma elem_of_ledgerAfter awards : ∀ cq q,
  q ∈ ledgerAfter cq awards ↔ q ∈ cq ∨ bonusesOf q awards ≠ [].
Proof.
  unfold ledgerAfter, bonusesOf.
  induction awards as [|a awards IH]; intros cq q; cbn [foldl omap].
  - cbn. tauto.
  - rewrite IH. destruct a as [amount | q' amount]; cbn.
    + reflexivity.
    + rewrite elem_of_union, elem_of_singleton.
      destruct (String.eqb_spec q' q) as [-> | Hne]; cbn.
      * split; [intros _ | intros _; left]; by right.
      * split; [intros [[H | H] | H] | intros [H | H]]; auto; congruence.
Qed.

Lemma ledgerAfter_mono awards cq q : q ∈ cq → q ∈ ledgerAfter cq awards.
Proof. intros H. apply elem_of_ledgerAfter. by left. Qed.

Lemma toggleQuestStep_mainQuests questId stepId s :
  mainQuests (toggleQuestStep questId stepId s)
  = map (λ quest, fst (toggleInQuest (completedQuests s) questId stepId quest)) (mainQuests s).
Proof. unfold toggleQuestStep. by rewrite applyAwards_mainQuests. Qed.

Lemma toggleQuestStep_completedQuests questId stepId s :
  completedQuests (toggleQuestStep questId stepId s)
  = ledgerAfter (completedQuests s) (toggleAwards questId stepId s).
Proof. unfold toggleQuestStep. by rewrite applyAwards_completedQuests. Qed.

Lemma toggleQuestStep_settledXP questId stepId s :
  settledXP (toggleQuestStep questId stepId s)
  = settledXP s + awardsTotal (toggleAwards questId stepId s).
Proof. unfold toggleQuestStep. by rewrite applyAwards_settledXP. Qed.

(** Serving the timers moves the pending bonuses into [totalXP] and
    touches nothing else. *)
Lemma addPending_totalXP pending : ∀ s,
  totalXP (foldl (λ s amount, setUserProfile (addXP amount) s) s pending)
  = totalXP s + foldr Z.add 0 pending.
Proof.
  induction pending as [|x pending IH]; intros s; cbn [foldl foldr]; [lia |].
  rewrite IH. unfold totalXP. cbn. lia.
Qed.

Lemma addPending_others pending : ∀ s,
  let s' := foldl (λ s amount, setUserProfile (addXP amount) s) s pending in
  mainQuests s' = mainQuests s ∧ completedQuests s' = completedQuests s ∧
  dailyQuests s' = dailyQuests s.
Proof.
  induction pending as [|x pending IH]; intros s; cbn [foldl]; [done |].
  destruct (IH (setUserProfile (addXP x) s)) as (-> & -> & ->). done.
Qed.

Lemma runTimers_facts s :
  mainQuests (runTimers s) = mainQuests s ∧
  completedQuests (runTimers s) = completedQuests s ∧
  dailyQuests (runTimers s) = dailyQuests s ∧
  pendingBonus (runTimers s) = [] ∧
  totalXP (runTimers s) = settledXP s ∧
  settledXP (runTimers s) = settledXP s.
Proof.
  unfold runTimers, settledXP.
  destruct (addPending_others (pendingBonus s) s) as (Hm & Hc & Hd).
  pose proof (addPending_totalXP (pendingBonus s) s) as Hxp.
  unfold clearTimers, totalXP in *. cbn. rewrite Hm, Hc, Hd, Hxp. split_and!; (done || lia).
Qed.

(** ** The awards of one call when quest ids are distinct *)

Lemma awards_no_match cq questId stepId quests :
  ¬ In questId (map MainQuest.id quests) →
  concat (map (λ quest, snd (toggleInQuest cq questId stepId quest)) quests) = [].
Proof.
  induction quests as [|quest quests IH]; intros Hnin; [reflexivity |].
  cbn [map concat In] in *. rewrite toggleInQuest_awards.
  destruct (String.eqb_spec (MainQuest.id quest) questId); [tauto |].
  rewrite IH; tauto.
Qed.

Lemma awards_unique cq questId stepId quests :
  NoDup (map MainQuest.id quests) →
  concat (map (λ quest, snd (toggleInQuest cq questId stepId quest)) quests)
  = match findQuest questId quests with
    | Some quest => questAwards cq questId stepId quest
                      (map (updateStep stepId) (MainQuest.steps quest))
    | None => []
    end.
Proof.
  unfold findQuest.
  induction quests as [|quest quests IH]; intros Hnd; [reflexivity |].
  cbn [map] in Hnd. apply NoDup_cons in Hnd as [Hnin Hnd].
  cbn [map concat List.find]. rewrite toggleInQuest_awards.
  destruct (String.eqb_spec (MainQuest.id quest) questId) as [<- | Hne].
  - rewrite awards_no_match, app_nil_r; [reflexivity |].
    by rewrite <- list_elem_of_In.
  - by rewrite IH.
Qed.

Lemma toggleAwards_unique questId stepId s :
  NoDup (questIds s) →
  toggleAwards questId stepId s
  = match findQuest questId (mainQuests s) with
    | Some quest => questAwards (completedQuests s) questId stepId quest
                      (map (updateStep stepId) (MainQuest.steps quest))
    | None => []
    end.
Proof. apply awards_unique. Qed.


Lemma findQuest_unique questId quests quest :
  NoDup (map MainQuest.id quests) → In quest quests → MainQuest.id quest = questId →
  findQuest questId quests = Some quest.
Proof.
  unfold findQuest.
  induction quests as [|q quests IH]; intros Hnd Hin Hid; [destruct Hin |].
  cbn [map] in Hnd. apply NoDup_cons in Hnd as [Hnin Hnd].
  cbn [List.find]. destruct Hin as [-> | Hin].
  - by rewrite (proj2 (String.eqb_eq _ _) Hid).
  - destruct (String.eqb_spec (MainQuest.id q) questId) as [Heq | Hne]; [| by apply IH].
    exfalso. apply Hnin. rewrite list_elem_of_In, Heq, <- Hid. by apply in_map.
Qed.


(** The bonuses of one call: none for another quest or for a quest in
    the ledger, otherwise at most the one bonus of the addressed quest. *)
Lemma toggleAwards_bonuses questId stepId s q :
  NoDup (questIds s) →
  bonusesOf q (toggleAwards questId stepId s) = [] ∨
  (q = questId ∧ (q ∉ completedQuests s) ∧
   (∃ quest, findQuest questId (mainQuests s) = Some quest ∧
     bonusesOf q (toggleAwards questId stepId s) = [questBonus quest] ∧
     toggleAwards questId stepId s = [StepAward stepXP; CompletionBonus questId (questBonus quest)] ∧
     (∃ step, List.find (λ st, String.eqb (Step.id st) stepId) (MainQuest.steps quest) = Some step ∧
              Step.completed step = false) ∧
     completedCount (map (updateStep stepId) (MainQuest.steps quest))
       = length (MainQuest.steps quest))).
Proof.
  intros Hnd. rewrite (toggleAwards_unique _ _ _ Hnd).
  destruct (findQuest questId (mainQuests s)) as [quest|] eqn:Efind; [| by left].
  destruct (questAwards_cases (completedQuests s) questId stepId quest)
    as [[-> _] | [Hstep [[-> _] | (-> & Hcount & Hnin)]]]; [by left | by left |].
  destruct (String.eqb_spec questId q) as [<- | Hne].
  - right. split_and!; [done | done |]. exists quest. split_and!; try done.
    cbn. by rewrite String.eqb_refl.
  - left. cbn. by rewrite (proj2 (String.eqb_neq _ _) Hne).
Qed.


(** ** What a toggle keeps *)




Lemma step_of_id steps (a b : Step.t) :
  NoDup (map Step.id steps) → In a steps → In b steps → Step.id a = Step.id b → a = b.
Proof.
  induction steps as [|s steps IH]; intros Hnd Ha Hb Hid; [destruct Ha |].
  cbn [map] in Hnd. apply NoDup_cons in Hnd as [Hnin Hnd].
  rewrite list_elem_of_In in Hnin.
  destruct Ha as [-> | Ha], Hb as [-> | Hb].
  - done.
  - exfalso. apply Hnin. rewrite Hid. by apply in_map.
  - exfalso. apply Hnin. rewrite <- Hid. by apply in_map.
  - by apply IH.
Qed.

Lemma allCompleted_count steps :
  forallb Step.completed steps = true → completedCount steps = length steps.
Proof.
  unfold completedCount. induction steps as [|s steps IH]; [reflexivity |].
  cbn [forallb List.filter]. intros [-> H]%andb_true_iff. cbn [length]. by rewrite IH.
Qed.

(** If the updated steps are all completed while the steps before were
    not, the call addressed a step that was still open. *)
Lemma open_step_addressed stepId steps :
  forallb Step.completed (map (updateStep stepId) steps) = true →
  forallb Step.completed steps = false →
  ∃ step, In step steps ∧ Step.id step = stepId ∧ Step.completed step = false.
Proof.
  induction steps as [|s steps IH]; [discriminate |].
  cbn [map forallb]. rewrite updateStep_completed.
  intros [Hs Hrest]%andb_true_iff Hopen.
  destruct (Step.completed s) eqn:Ec.
  - cbn in Hopen. destruct (IH Hrest Hopen) as (step & Hin & Hid & Hc).
    exists step. split_and!; [by right | done | done].
  - exists s. split_and!; [by left | by apply String.eqb_eq | done].
Qed.

(** ** The completion ledger along a run *)



Lemma toggleQuestStep_ledgerCovers questId stepId s q :
  NoDup (questIds s) → stepIdsDistinct q s → ledgerCovers q s →
  ledgerCovers q (toggleQuestStep questId stepId s).
Proof.
  intros Hnd Hsteps Hcov quest'. rewrite toggleQuestStep_mainQuests.
  intros (quest & <- & Hin)%in_map_iff Hid Hall. rewrite toggleInQuest_id in Hid.
  rewrite toggleQuestStep_completedQuests.
  unfold allCompleted in Hall. rewrite toggleInQuest_steps in Hall.
  destruct (String.eqb_spec (MainQuest.id quest) questId) as [Hq | Hq].
  - destruct (forallb Step.completed (MainQuest.steps quest)) eqn:Ebefore.
    + apply ledgerAfter_mono. by apply (Hcov quest).
    + destruct (open_step_addressed _ _ Hall Ebefore) as (step & Hstep & Hsid & Hopen).
      assert (questId = q) as -> by congruence.
      rewrite (toggleAwards_unique _ _ _ Hnd), (findQuest_unique q _ quest Hnd Hin Hid).
      destruct (questAwards_cases (completedQuests s) q stepId quest)
        as [[_ Hdone] | [_ [[-> [Hcount | Hled]] | (-> & _ & _)]]].
      * destruct (List.find (λ st, String.eqb (Step.id st) stepId) (MainQuest.steps quest))
          as [found|] eqn:Efind.
        -- pose proof (Hdone found eq_refl) as Hfound.
           apply find_some in Efind as [Hfin Hfid]. apply String.eqb_eq in Hfid.
           assert (found = step) as ->
             by (apply (step_of_id (MainQuest.steps quest)); [by apply (Hsteps quest) | done | done | congruence]).
           congruence.
        -- exfalso. apply (find_none _ _ Efind) in Hstep.
           by rewrite Hsid, String.eqb_refl in Hstep.
      * exfalso. apply Hcount. rewrite (allCompleted_count _ Hall). apply length_map.
      * by apply ledgerAfter_mono.
      * apply elem_of_ledgerAfter. right. cbn. by rewrite String.eqb_refl.
  - apply ledgerAfter_mono. by apply (Hcov quest).
Qed.









(** ** Calls that change nothing *)

Lemma setMainQuests_same f s : f (mainQuests s) = mainQuests s → setMainQuests f s = s.
Proof. destruct s. unfold setMainQuests. cbn. by intros ->. Qed.

Lemma toggleAwards_nil_state questId stepId s :
  toggleAwards questId stepId s = [] →
  toggleQuestStep questId stepId s
  = setMainQuests
      (map (λ quest, fst (toggleInQuest (completedQuests s) questId stepId quest))) s.
Proof. intros H. unfold toggleQuestStep. by rewrite H. Qed.

Lemma concat_all_nil {A B} (f : A → list B) l : (∀ x, In x l → f x = []) → concat (map f l) = [].
Proof.
  induction l as [|x l IH]; intros H; [reflexivity |].
  cbn [map concat]. rewrite H, IH; [reflexivity | | by left].
  intros y Hy. apply H. by right.
Qed.

Lemma map_id_on {A} (f : A → A) l : (∀ x, In x l → f x = x) → map f l = l.
Proof.
  induction l as [|x l IH]; intros H; [reflexivity |].
  cbn [map]. rewrite H, IH; [reflexivity | | by left].
  intros y Hy. apply H. by right.
Qed.

(** The second of two equal calls in a row. *)
Lemma toggleQuestStep_twice questId stepId s :
  toggleAwards questId stepId (toggleQuestStep questId stepId s) = [] ∧
  toggleQuestStep questId stepId (toggleQuestStep questId stepId s)
  = toggleQuestStep questId stepId s.
Proof.
  assert (toggleAwards questId stepId (toggleQuestStep questId stepId s) = []) as Hnil.
  { unfold toggleAwards. rewrite toggleQuestStep_mainQuests, map_map.
    apply concat_all_nil. intros quest _. by rewrite toggleInQuest_again. }
  split; [exact Hnil |].
  rewrite (toggleAwards_nil_state _ _ _ Hnil). apply setMainQuests_same.
  rewrite toggleQuestStep_mainQuests, map_map.
  apply map_ext. intros quest. by rewrite toggleInQuest_again.
Qed.

Lemma toggleQuestStep_unknown_quest questId stepId s :
  ¬ In questId (questIds s) →
  toggleAwards questId stepId s = [] ∧ toggleQuestStep questId stepId s = s.
Proof.
  intros Hnin.
  assert (∀ quest, In quest (mainQuests s) →
            toggleInQuest (completedQuests s) questId stepId quest = (quest, [])) as Hother.
  { intros quest Hin. apply toggleInQuest_other.
    destruct (String.eqb_spec (MainQuest.id quest) questId) as [Heq | Hne]; [| done].
    exfalso. apply Hnin. rewrite <- Heq. unfold questIds. by apply in_map. }
  assert (toggleAwards questId stepId s = []) as Hnil.
  { unfold toggleAwards. apply concat_all_nil. intros quest Hin. by rewrite Hother. }
  split; [exact Hnil |].
  rewrite (toggleAwards_nil_state _ _ _ Hnil). apply setMainQuests_same.
  apply map_id_on. intros quest Hin. by rewrite Hother.
Qed.

Lemma toggleInQuest_noOpenStep cq questId stepId quest :
  (∀ step, In step (MainQuest.steps quest) → MainQuest.id quest = questId →
           Step.id step = stepId → Step.completed step = true) →
  toggleInQuest cq questId stepId quest = (refreshed questId quest, []).
Proof.
  intros Hdone. unfold toggleInQuest, refreshed.
  destruct (String.eqb_spec (MainQuest.id quest) questId) as [Hid | Hid]; [| reflexivity].
  rewrite map_updateStep_unchanged.
  2:{ intros step Hin Heq. apply Hdone; [done | done | by apply String.eqb_eq]. }
  f_equal. unfold questAwards.
  destruct (List.find _ (MainQuest.steps quest)) as [step|] eqn:Efind; [| reflexivity].
  apply find_some in Efind as [Hin Heq]. apply String.eqb_eq in Heq.
  by rewrite (Hdone step Hin Hid Heq).
Qed.

Lemma refreshed_steps questId quest :
  MainQuest.steps (refreshed questId quest) = MainQuest.steps quest.
Proof. unfold refreshed. by destruct (String.eqb _ _). Qed.

Lemma refreshed_same questId quest :
  (MainQuest.id quest = questId → MainQuest.progress quest = computedProgress quest) →
  refreshed questId quest = quest.
Proof.
  intros H. unfold refreshed.
  destruct (String.eqb_spec (MainQuest.id quest) questId) as [Hid | Hid]; [| reflexivity].
  destruct quest. unfold withProgress. cbn in *. by rewrite <- H.
Qed.

Lemma toggleQuestStep_noOpenStep questId stepId s :
  noOpenStep questId stepId s →
  toggleAwards questId stepId s = [] ∧
  toggleQuestStep questId stepId s = setMainQuests (map (refreshed questId)) s.
Proof.
  intros Hno.
  assert (∀ quest, In quest (mainQuests s) →
            toggleInQuest (completedQuests s) questId stepId quest
            = (refreshed questId quest, [])) as Hq.
  { intros quest Hin. apply toggleInQuest_noOpenStep. intros step Hstep Hid Hsid.
    by apply (Hno quest step). }
  assert (toggleAwards questId stepId s = []) as Hnil.
  { unfold toggleAwards. apply concat_all_nil. intros quest Hin. by rewrite Hq. }
  split; [exact Hnil |].
  rewrite (toggleAwards_nil_state _ _ _ Hnil).
  destruct s. unfold setMainQuests. cbn in *. f_equal.
  apply map_ext_in. intros quest Hin. by rewrite Hq.
Qed.

(** C7, as amended.  The second of two equal [toggleQuestStep] calls in
    a row awards nothing and leaves the whole state as the first call
    left it.  A call with an unknown quest id awards nothing and leaves
    the whole state unchanged.  A call that names a known quest and a
    step that is unknown or already completed awards nothing and leaves
    the profile with [totalXP], [completedQuests], the timer queue, every
    step flag and every other quest unchanged; it sets the stored
    [progress] of the named quest to the rounded percentage of its
    completed steps, so the whole state is unchanged whenever that
    quest's stored progress had this value already. *)
Theorem toggleQuestStep_noop (s : State) (questId stepId : string) :
  (toggleAwards questId stepId (toggleQuestStep questId stepId s) = [] ∧
   toggleQuestStep questId stepId (toggleQuestStep questId stepId s)
   = toggleQuestStep questId stepId s) ∧
  (¬ In questId (questIds s) →
   toggleAwards questId stepId s = [] ∧ toggleQuestStep questId stepId s = s) ∧
  (noOpenStep questId stepId s →
   let s' := toggleQuestStep questId stepId s in
   toggleAwards questId stepId s = [] ∧
   userProfile s' = userProfile s ∧
   completedQuests s' = completedQuests s ∧
   pendingBonus s' = pendingBonus s ∧
   dailyQuests s' = dailyQuests s ∧
   map MainQuest.steps (mainQuests s') = map MainQuest.steps (mainQuests s) ∧
   mainQuests s' = map (refreshed questId) (mainQuests s) ∧
   ((∀ quest, In quest (mainQuests s) → MainQuest.id quest = questId →
              MainQuest.progress quest = computedProgress quest) → s' = s)).
Proof.
  split_and!.
  - apply toggleQuestStep_twice.
  - apply toggleQuestStep_twice.
  - apply toggleQuestStep_unknown_quest.
  - intros Hno s'. destruct (toggleQuestStep_noOpenStep questId stepId s Hno) as [Hnil Hs'].
    subst s'. rewrite Hs'. split_and!; try done.
    + cbn. rewrite map_map. apply map_ext. intros quest. apply refreshed_steps.
    + intros Hprog. apply setMainQuests_same, map_id_on.
      intros quest Hin. apply refreshed_same. by apply Hprog.
Qed.

(** C7, as stated, fails for an unknown step id: on the start state,
    where the table gives ['career-8'] the progress [5] with no step
    completed, a call with a step id that the quest does not have
    rewrites that progress to [0]. *)
Lemma toggleQuestStep_unknown_step_rewrites_progress :
  List.find (λ st, String.eqb (Step.id st) "c8-s21") (MainQuest.steps Table.career_8) = None ∧
  map MainQuest.progress (mainQuests Table.smallState) = [0; 5] ∧
  map MainQuest.progress (mainQuests (toggleQuestStep "career-8" "c8-s21" Table.smallState))
  = [0; 0] ∧
  toggleQuestStep "career-8" "c8-s21" Table.smallState ≠ Table.smallState.
Proof.
  split_and!; try (vm_compute; reflexivity).
  intros H. apply (f_equal (λ s, map MainQuest.progress (mainQuests s))) in H.
  vm_compute in H. discriminate.
Qed.

(** ** [resetAllQuests] *)

(** C8.  After [resetAllQuests] every main quest has progress [0] and
    every step of every main quest is not completed, and
    [completedQuests] is empty: the one operation does both.  The quests
    and their steps are otherwise the same, and the XP stays. *)
Theorem resetAllQuests_spec (s : State) :
  let s' := resetAllQuests s in
  Forall (λ quest, MainQuest.progress quest = 0 ∧
                   Forall (λ step, Step.completed step = false) (MainQuest.steps quest))
         (mainQuests s') ∧
  completedQuests s' = ∅ ∧
  map MainQuest.id (mainQuests s') = map MainQuest.id (mainQuests s) ∧
  map (λ quest, map Step.id (MainQuest.steps quest)) (mainQuests s')
  = map (λ quest, map Step.id (MainQuest.steps quest)) (mainQuests s) ∧
  userProfile s' = userProfile s ∧
  dailyQuests s' = dailyQuests s.
Proof.
  cbn. split_and!; try done.
  - apply Forall_forall. intros quest' Hin%list_elem_of_In.
    apply in_map_iff in Hin as (quest & <- & _). split; [reflexivity |].
    cbn. apply Forall_forall. intros step' Hs%list_elem_of_In.
    by apply in_map_iff in Hs as (step & <- & _).
  - rewrite map_map. by apply map_ext.
  - rewrite map_map. apply map_ext. intros quest. cbn. rewrite map_map. by apply map_ext.
Qed.

End QuestFacts.

(** * Properties of the durable store *)

Module StorageFacts.

Import Storage.

Lemma getItem_readable key w :
  readThrows (localStorage w) = false → readThrows (sessionStorage w) = false →
  getItem key w = firstTruthy key w.
Proof.
  intros Hl Hs. unfold getItem, getItem_try, medium_getItem, firstTruthy.
  rewrite Hl, Hs.
  destruct (truthy (items (localStorage w) !! key)); [reflexivity |].
  destruct (truthy (items (sessionStorage w) !! key)); [reflexivity |].
  by destruct (truthy (items (sessionStorage w) !! (key +:+ "_backup"))).
Qed.

Lemma getItem_primary_throws key w :
  readThrows (localStorage w) = true → getItem key w = None.
Proof. intros H. unfold getItem, getItem_try, medium_getItem. by rewrite H. Qed.

(** C3.  The source at the failing input: with [localStorage] throwing
    on every access, [Storage.setItem] falls back and writes the value
    to the live copy in [sessionStorage]; [Storage.getItem] on the
    resulting storage never looks there, because the exception of the
    [localStorage] read ends the one [try] block, and answers [null]. *)
Theorem getItem_gives_up_on_primary_read_failure :
  let w := setItem "userProgressData" "saved" "1700000000000" localStorageDisabled in
  items (sessionStorage w) !! "userProgressData" = Some "saved" ∧
  readThrows (sessionStorage w) = false ∧
  getItem "userProgressData" w = None.
Proof. cbn zeta. split_and!; vm_compute; reflexivity. Qed.

End StorageFacts.

(** * Properties of the persistence coordinator *)

Module PersistenceFacts.

Import Quests Persistence.

(** ** The readers invert the writers *)

Lemma readStep_stepJSON step : readStep (stepJSON step) = Some step.
Proof. by destruct step. Qed.

Lemma mapM_read {A} (write : A → json) (read : json → option A) (l : list A) :
  (∀ x, read (write x) = Some x) → mapM read (map write l) = Some l.
Proof.
  intros H. induction l as [|x l IH]; [reflexivity |].
  cbn [map mapM]. rewrite H. cbn. by rewrite IH.
Qed.

Lemma readMainQuest_mainQuestJSON quest : readMainQuest (mainQuestJSON quest) = Some quest.
Proof.
  destruct quest as [i t d ic x c p col steps]. unfold readMainQuest, mainQuestJSON. cbn.
  by rewrite (mapM_read stepJSON readStep steps readStep_stepJSON).
Qed.

Lemma readDailyQuest_dailyQuestJSON quest : readDailyQuest (dailyQuestJSON quest) = Some quest.
Proof. by destruct quest. Qed.

Lemma readUserProfile_userProfileJSON p : readUserProfile (userProfileJSON p) = Some p.
Proof. by destruct p. Qed.

Lemma asTheme_themeName t : asTheme (Some (JStr (themeName t))) = Some t.
Proof. by destruct t. Qed.

(** ** Validation *)

Lemma validateUserData_true data :
  validateUserData data = true →
  ∃ properties profile dailies mains xp,
    data = JObj properties ∧
    get data "userProfile" = Some profile ∧ truthy (Some profile) = true ∧
    get data "dailyQuests" = Some dailies ∧ truthy (Some dailies) = true ∧
    get data "mainQuests" = Some mains ∧ truthy (Some mains) = true ∧
    get profile "totalXP" = Some (JNum xp).
Proof.
  unfold validateUserData, requiredFields. cbn [forallb].
  destruct data as [| b | n | str | l | properties]; cbn [truthy isObjectType negb orb get];
    try discriminate.
  - by destruct b.
  - by destruct (negb (n =? 0)).
  - by destruct (negb (String.eqb str "")).
  - destruct (property properties "userProfile") as [profile|] eqn:Ep; [| discriminate].
    destruct (truthy (Some profile)) eqn:Tp; [| discriminate].
    destruct (property properties "dailyQuests") as [dailies|] eqn:Ed; [| discriminate].
    destruct (truthy (Some dailies)) eqn:Td; [| discriminate].
    destruct (property properties "mainQuests") as [mains|] eqn:Em; [| discriminate].
    destruct (truthy (Some mains)) eqn:Tm; [| discriminate].
    cbn. destruct (get profile "totalXP") as [[| | xp | | |]|] eqn:Ex; try discriminate.
    intros _. by exists properties, profile, dailies, mains, xp.
Qed.

Lemma validateUserData_missing data field :
  In field requiredFields → truthy (get data field) = false → validateUserData data = false.
Proof.
  intros Hin Hmiss. unfold validateUserData.
  destruct (negb (truthy (Some data)) || negb (isObjectType data)); [reflexivity |].
  assert (forallb (λ field, truthy (get data field)) requiredFields = false) as ->; [| reflexivity].
  apply not_true_is_false. intros Hall. rewrite forallb_forall in Hall.
  specialize (Hall field Hin). congruence.
Qed.

Lemma validateUserData_xp_not_number data :
  isNumber (v ← get data "userProfile"; get v "totalXP") = false →
  validateUserData data = false.
Proof.
  intros H. unfold validateUserData. rewrite H.
  destruct (_ || _); [reflexivity |]. by destruct (negb _).
Qed.

(** C9.  [validateUserData] answers [true] only for an object that has
    the [userProfile], [dailyQuests] and [mainQuests] properties and
    whose [userProfile.totalXP] is a number; an aggregate without one of
    the three properties, or whose profile XP is not a number, is
    rejected; and when [loadUserData] finds a rejected aggregate it
    returns before any state setter is called, so the live state is what
    it was.  The aggregate of the start state with its [mainQuests]
    property removed is such a case. *)
Theorem validateUserData_gate (data : json) :
  (validateUserData data = true →
   ∃ properties profile dailies mains xp,
     data = JObj properties ∧
     get data "userProfile" = Some profile ∧
     get data "dailyQuests" = Some dailies ∧
     get data "mainQuests" = Some mains ∧
     get profile "totalXP" = Some (JNum xp)) ∧
  (get data "userProfile" = None ∨ get data "dailyQuests" = None ∨
   get data "mainQuests" = None ∨
   isNumber (v ← get data "userProfile"; get v "totalXP") = false →
   validateUserData data = false) ∧
  (∀ (parse : string → option json) (w : Storage.Web) (s : State) (savedData : string),
     Storage.getItem storageKey w = Some savedData →
     parse savedData = Some data →
     validateUserData data = false →
     loadUserData parse w s = Rejected data ∧
     restoreInvoked parse w s = false ∧
     stateAfterLoad parse w s = Some s) ∧
  (∀ savedAt : string,
     get (withoutMainQuests (userData savedAt Table.smallState)) "mainQuests" = None ∧
     validateUserData (withoutMainQuests (userData savedAt Table.smallState)) = false).
Proof.
  split_and!.
  - intros H. destruct (validateUserData_true data H)
      as (properties & profile & dailies & mains & xp & H1 & H2 & _ & H3 & _ & H4 & _ & H5).
    by exists properties, profile, dailies, mains, xp.
  - intros [H | [H | [H | H]]].
    + apply (validateUserData_missing data "userProfile"); [cbn; tauto | by rewrite H].
    + apply (validateUserData_missing data "dailyQuests"); [cbn; tauto | by rewrite H].
    + apply (validateUserData_missing data "mainQuests"); [cbn; tauto | by rewrite H].
    + by apply validateUserData_xp_not_number.
  - intros parse w s savedData Hget Hparse Hbad.
    unfold stateAfterLoad, restoreInvoked, loadUserData. by rewrite Hget, Hparse, Hbad.
  - intros savedAt. split; [reflexivity |].
    apply (validateUserData_missing _ "mainQuests"); [cbn; tauto | reflexivity].
Qed.

(** ** Round trip *)

Lemma validateUserData_userData savedAt s : validateUserData (userData savedAt s) = true.
Proof. reflexivity. Qed.

Lemma themeName_truthy t : String.eqb (themeName t) "" = false.
Proof. by destruct t. Qed.

Lemma whenTruthy_Some {A} (read : json → option A) set j a s :
  truthy (Some j) = true → read j = Some a → whenTruthy read set (Some j) s = Some (set a s).
Proof. intros Ht Hr. unfold whenTruthy. by rewrite Ht, Hr. Qed.

Lemma whenTruthy_falsy {A} (read : json → option A) set v s :
  truthy v = false → whenTruthy read set v s = Some s.
Proof. intros Ht. unfold whenTruthy. destruct v; by rewrite ?Ht. Qed.

Lemma whenDefined_bool set b s :
  whenDefined (λ v, asBool (Some v)) set (Some (JBool b)) s = Some (set b s).
Proof. reflexivity. Qed.

Lemma restore_userData savedAt s live :
  restore (userData savedAt s) live = Some (restored s live).
Proof.
  unfold restore.
  change (get (userData savedAt s) "userProfile") with (Some (userProfileJSON (userProfile s))).
  change (get (userData savedAt s) "dailyQuests")
    with (Some (JArr (map dailyQuestJSON (dailyQuests s)))).
  change (get (userData savedAt s) "mainQuests")
    with (Some (JArr (map mainQuestJSON (mainQuests s)))).
  change (get (userData savedAt s) "completedQuests")
    with (Some (JArr (map JStr (elements (completedQuests s))))).
  change (get (userData savedAt s) "lastResetDate") with (Some (JStr (lastResetDate s))).
  change (get (userData savedAt s) "notifications") with (Some (JBool (notifications s))).
  change (get (userData savedAt s) "progressReminders")
    with (Some (JBool (progressReminders s))).
  change (get (userData savedAt s) "soundEnabled") with (Some (JBool (soundEnabled s))).
  change (get (userData savedAt s) "vibrationsEnabled")
    with (Some (JBool (vibrationsEnabled s))).
  change (get (userData savedAt s) "theme") with (Some (JStr (themeName (theme s)))).
  change (get (userData savedAt s) "animationsEnabled")
    with (Some (JBool (animationsEnabled s))).
  rewrite (whenTruthy_Some _ _ _ (userProfile s)); [| done | apply readUserProfile_userProfileJSON].
  cbn [mbind option_bind].
  rewrite (whenTruthy_Some _ _ _ (dailyQuests s)); [| done |].
  2:{ cbn. apply mapM_read, readDailyQuest_dailyQuestJSON. }
  cbn [mbind option_bind].
  rewrite (whenTruthy_Some _ _ _ (mainQuests s)); [| done |].
  2:{ cbn. apply mapM_read, readMainQuest_mainQuestJSON. }
  cbn [mbind option_bind].
  rewrite (whenTruthy_Some _ _ _ (elements (completedQuests s))); [| done |].
  2:{ cbn. by apply (mapM_read JStr (λ e, asString (Some e))). }
  cbn [mbind option_bind].
  rewrite list_to_set_elements_L.
  assert (∀ t, whenTruthy (λ v, asString (Some v)) setLastResetDate
                 (Some (JStr (lastResetDate s))) t
               = Some (if String.eqb (lastResetDate s) "" then t
                       else setLastResetDate (lastResetDate s) t)) as ->.
  { intros t. unfold whenTruthy. cbn. by destruct (String.eqb (lastResetDate s) ""). }
  cbn [mbind option_bind].
  do 4 (rewrite whenDefined_bool; cbn [mbind option_bind]).
  rewrite (whenTruthy_Some _ _ _ (theme s)); [| cbn; by rewrite themeName_truthy | apply asTheme_themeName].
  cbn [mbind option_bind].
  rewrite !whenDefined_bool.
  unfold restored.
  destruct (String.eqb (UserProfile.avatar (userProfile s)) ""),
           (String.eqb (lastResetDate s) ""); destruct live; reflexivity.
Qed.

(** C2.  For every state, and so for every state that the quest
    operations reach, the aggregate that [saveUserData] builds passes
    [validateUserData], and restoring it, over whatever the live state
    is, gives a state with the same profile (the same [totalXP]), the
    same main quests (the same steps and the same progress of every
    quest), the same daily quests and the same [completedQuests]. *)
Theorem save_restore_round_trip (savedAt : string) (s live : State) :
  validateUserData (userData savedAt s) = true ∧
  ∃ s', restore (userData savedAt s) live = Some s' ∧
        totalXP s' = totalXP s ∧
        userProfile s' = userProfile s ∧
        map MainQuest.progress (mainQuests s') = map MainQuest.progress (mainQuests s) ∧
        mainQuests s' = mainQuests s ∧
        dailyQuests s' = dailyQuests s ∧
        completedQuests s' = completedQuests s.
Proof.
  split; [apply validateUserData_userData |].
  exists (restored s live). split; [apply restore_userData |]. by split_and!.
Qed.

End PersistenceFacts.

(** * Properties of the daily reset check *)

Module SchedulerFacts.

Import Scheduler.

(** The date key is never the empty string. *)
Lemma isoDate_nonempty days : isoDate days ≠ "".
Proof.
  unfold isoDate. destruct (civilFromDays days) as [[year month] dayOfMonth].
  destruct (padStart 4 year); cbn; discriminate.
Qed.

(** Nor is the date key that the code computes. *)
Lemma getCurrentDateString_nonempty hostOffset now :
  getCurrentDateString hostOffset now ≠ "".
Proof.
  unfold getCurrentDateString, toISODate. cbn zeta.
  generalize (getKyivTime hostOffset now / 86400). exact isoDate_nonempty.
Qed.

(** The [Date] that [getKyivTime] returns shows the Kyiv hour on every
    host. *)
Lemma getHours_getKyivTime hostOffset now :
  validClock now → getHours hostOffset (getKyivTime hostOffset now) = hours now.
Proof.
  intros (Hh & Hm & Hs). unfold getHours, getKyivTime, parseLocal, localSeconds.
  cbn zeta.
  replace (day now * 86400 + hours now * 3600 + minutes now * 60 + seconds now
           - hostOffset * 60 + hostOffset * 60)
    with ((hours now * 3600 + minutes now * 60 + seconds now) + day now * 86400) by lia.
  rewrite Z.mod_add by lia. rewrite Z.mod_small by lia.
  symmetry. apply (Z.div_unique _ _ _ (minutes now * 60 + seconds now)); lia.
Qed.

(** The date key is the Kyiv calendar date when the host is east of
    Greenwich by no more than the time of day. *)
Lemma getCurrentDateString_near_utc hostOffset now :
  validClock now → 0 ≤ hostOffset → hostOffset * 60 ≤ hours now * 3600 →
  getCurrentDateString hostOffset now = isoDate (day now).
Proof.
  intros (Hh & Hm & Hs) Hlo Hhi.
  unfold getCurrentDateString, toISODate, getKyivTime, parseLocal, localSeconds.
  cbn zeta. f_equal. symmetry.
  apply (Z.div_unique _ _ _
           (hours now * 3600 + minutes now * 60 + seconds now - hostOffset * 60)); lia.
Qed.

(** On a host between UTC and UTC+4 the check is the specified one. *)
Lemma shouldResetDailyQuests_near_utc lastResetDate hostOffset now :
  validClock now → 0 ≤ hostOffset ≤ 240 →
  shouldResetDailyQuests lastResetDate hostOffset now
  = isResetDue_as_specified lastResetDate now.
Proof.
  intros Hv Hoff. unfold shouldResetDailyQuests, isResetDue_as_specified,
    currentDateKey_as_specified, hourOfDay_as_specified, cutoverHour.
  cbn zeta. rewrite getHours_getKyivTime by done.
  destruct (Z.leb_spec 4 (hours now)) as [Hge | Hlt].
  - rewrite getCurrentDateString_near_utc by (done || lia).
    rewrite (String.eqb_sym lastResetDate). by destruct (negb _).
  - by rewrite !andb_false_r.
Qed.

(** On the first run of the effect, where the cell is still empty, only
    the hour decides. *)
Lemma shouldResetDailyQuests_first_run hostOffset now :
  shouldResetDailyQuests "" hostOffset now
  = (cutoverHour <=? getHours hostOffset (getKyivTime hostOffset now)).
Proof.
  unfold shouldResetDailyQuests. cbn zeta.
  destruct (String.eqb_spec "" (getCurrentDateString hostOffset now)) as [Heq | _].
  - symmetry in Heq. by apply getCurrentDateString_nonempty in Heq.
  - cbn. by destruct (_ <=? _).
Qed.

(** C10.  [shouldResetDailyQuests] does not compute the specified check
    on every host: the date it compares with [lastResetDate] is the UTC
    date of the Kyiv wall clock read as local time of the host, not the
    Kyiv calendar date.  With [lastResetDate] "2024-01-01":
    - at 05:00 on 2024-01-02 in Kyiv the specified check is true (the
      date key "2024-01-02" differs and the hour is past the cutover),
      but on a host in Tokyo the code computes the key "2024-01-01" and
      answers false;
    - at 20:00 on 2024-01-01 in Kyiv the specified check is false (same
      date), but on a host in New York the code computes the key
      "2024-01-02" and answers true.
    The hour the code reads is the Kyiv hour in both cases.  On a host
    between UTC and UTC+4, Kyiv itself among them, the code computes the
    specified check at every time. *)
Theorem shouldResetDailyQuests_reads_host_zone :
  let morning := mkWallClock (daysFromCivil 2024 1 2) 5 0 0 in
  let evening := mkWallClock (daysFromCivil 2024 1 1) 20 0 0 in
  (currentDateKey_as_specified morning = "2024-01-02" ∧
   isResetDue_as_specified "2024-01-01" morning = true ∧
   getHours tokyo (getKyivTime tokyo morning) = 5 ∧
   getCurrentDateString tokyo morning = "2024-01-01" ∧
   shouldResetDailyQuests "2024-01-01" tokyo morning = false) ∧
  (currentDateKey_as_specified evening = "2024-01-01" ∧
   isResetDue_as_specified "2024-01-01" evening = false ∧
   getHours newYork (getKyivTime newYork evening) = 20 ∧
   getCurrentDateString newYork evening = "2024-01-02" ∧
   shouldResetDailyQuests "2024-01-01" newYork evening = true) ∧
  (∀ lastResetDate hostOffset now,
     validClock now → 0 ≤ hostOffset ≤ 240 →
     shouldResetDailyQuests lastResetDate hostOffset now
     = isResetDue_as_specified lastResetDate now).
Proof.
  cbn zeta. split; [| split].
  - repeat apply conj; vm_compute; reflexivity.
  - repeat apply conj; vm_compute; reflexivity.
  - intros lastResetDate hostOffset now. apply shouldResetDailyQuests_near_utc.
Qed.

End SchedulerFacts.

(** * Further properties of the progression calculator *)

Module ProgressionMore.
Import Progression ProgressionFacts.

(** ** XP inside the current level *)

Lemma tableAt_nat (k : nat) : tableAt levelTable (Z.of_nat k) = nth k levelTable 0.
Proof. unfold tableAt. destruct (Z.ltb_spec (Z.of_nat k) 0); [lia |]. by rewrite Nat2Z.id. Qed.

(** Below the cap the XP shown as gathered in the current level is the
    distance of [xp] from the start of its level, it is smaller than the
    XP shown as needed for the level, and the progress percentage is
    their exact quotient, below [100]: the [Math.min] of
    [getLevelProgress] never takes effect. *)
Theorem xp_in_level_below_cap (xp : Z) :
  0 ≤ xp → getLevel xp < 100 →
  0 ≤ getXPInCurrentLevel xp < getXPNeededForCurrentLevel xp ∧
  xp = totalXpForLevel (getLevel xp) + getXPInCurrentLevel xp ∧
  (getLevelProgress xp ==
     100 * inject_Z (getXPInCurrentLevel xp) / inject_Z (getXPNeededForCurrentLevel xp))%Q ∧
  (getLevelProgress xp < 100)%Q.
Proof.
  intros Hxp Hlow.
  destruct (getLevel_band xp Hxp Hlow) as (k & Hk & Hlevel & Hlo & Hhi).
  rewrite sumFirst_step in Hhi by (rewrite levelTable_length; lia).
  pose proof (nth_positive levelTable k levelTable_positive
                ltac:(rewrite levelTable_length; lia)) as Hpos.
  assert (getXPInCurrentLevel xp = xp - sumFirst levelTable k) as Hin.
  { unfold getXPInCurrentLevel, totalXpForLevel. rewrite Hlevel.
    replace (Z.of_nat k + 1 - 1) with (Z.of_nat k) by lia. by rewrite Nat2Z.id. }
  assert (getXPNeededForCurrentLevel xp = nth k levelTable 0) as Hneed.
  { unfold getXPNeededForCurrentLevel. rewrite Hlevel.
    destruct (Z.leb_spec 100 (Z.of_nat k + 1)); [lia |].
    replace (Z.of_nat k + 1 - 1) with (Z.of_nat k) by lia. apply tableAt_nat. }
  assert (inject_Z (xp - sumFirst levelTable k) / inject_Z (nth k levelTable 0%Z) * 100 < 100)%Q
    as Hbelow.
  { apply Qlt_le_trans with (1 * 100)%Q; [| discriminate].
    apply Qmult_lt_compat_r; [done |].
    apply Qlt_shift_div_r.
    - rewrite <- (Zlt_Qlt 0). exact Hpos.
    - rewrite Qmult_1_l, <- Zlt_Qlt. lia. }
  assert (getLevelProgress xp
          == inject_Z (xp - sumFirst levelTable k) / inject_Z (nth k levelTable 0%Z) * 100)%Q
    as Hprog.
  { rewrite getLevelProgress_below_cap by done. rewrite Hlevel.
    replace (Z.of_nat k + 1 - 1) with (Z.of_nat k) by lia.
    rewrite Nat2Z.id, tableAt_nat. apply Q.min_r. by apply Qlt_le_weak. }
  rewrite Hin, Hneed. split_and!.
  - lia.
  - lia.
  - unfold totalXpForLevel. rewrite Hlevel.
    replace (Z.of_nat k + 1 - 1) with (Z.of_nat k) by lia. rewrite Nat2Z.id. lia.
  - rewrite Hprog. apply percent_forms.
  - by rewrite Hprog.
Qed.

Lemma xp_in_level_below_cap_witness :
  0 ≤ 750 ∧ getLevel 750 < 100 ∧
  0 ≤ getXPInCurrentLevel 750 < getXPNeededForCurrentLevel 750 ∧
  getXPInCurrentLevel 750 = 250 ∧ getXPNeededForCurrentLevel 750 = 540.
Proof.
  assert (0 ≤ 750) as H0 by lia.
  assert (getLevel 750 < 100) as H1 by (vm_compute; reflexivity).
  split_and!; [exact H0 | exact H1 | | | reflexivity | reflexivity];
    apply (xp_in_level_below_cap 750 H0 H1).
Defined.

(** At the cap the two displayed amounts part ways: the XP needed stays
    at the last table entry while the XP gathered keeps growing with
    [xp], and from the sum of the whole table on it is no smaller than
    the XP needed. *)
Theorem xp_in_level_at_cap (xp : Z) :
  100 ≤ getLevel xp →
  getXPNeededForCurrentLevel xp = 1017878 ∧
  getXPInCurrentLevel xp = xp - 12722220 ∧
  (13740098 ≤ xp → getXPNeededForCurrentLevel xp ≤ getXPInCurrentLevel xp).
Proof.
  intros Hcap. pose proof (getLevel_bounds xp) as Hb.
  assert (getLevel xp = 100) as Hlevel by lia.
  assert (getXPNeededForCurrentLevel xp = 1017878) as Hneed
    by (unfold getXPNeededForCurrentLevel; by rewrite Hlevel).
  assert (getXPInCurrentLevel xp = xp - 12722220) as Hin
    by (unfold getXPInCurrentLevel; by rewrite Hlevel).
  rewrite Hneed, Hin. split_and!; [done | done | lia].
Qed.

Lemma xp_in_level_at_cap_witness :
  100 ≤ getLevel 14000000 ∧ getXPInCurrentLevel 14000000 = 1277780 ∧
  getXPNeededForCurrentLevel 14000000 = 1017878.
Proof.
  assert (100 ≤ getLevel 14000000) as H by (vm_compute; discriminate).
  destruct (xp_in_level_at_cap 14000000 H) as (Hneed & Hin & _).
  split_and!; [exact H | rewrite Hin; reflexivity | exact Hneed].
Defined.

(** ** The band of a level *)

(** For a non-negative total the level is [k + 1] exactly when [xp] has
    reached the cost of the first [k] levels and, below the cap, not yet
    the cost of the first [k + 1]. *)
Theorem getLevel_band_iff (xp : Z) (k : nat) :
  0 ≤ xp → (k < 100)%nat →
  (getLevel xp = Z.of_nat k + 1 ↔
   sumFirst levelTable k ≤ xp ∧ ((k < 99)%nat → xp < sumFirst levelTable (S k))).
Proof.
  intros Hxp Hk. split.
  - intros Hlevel. destruct (Z.le_gt_cases 100 (getLevel xp)) as [Hcap | Hlow].
    + assert (k = 99%nat) as -> by lia. split; [| lia].
      destruct (Z.lt_ge_cases xp (sumFirst levelTable 99)) as [Hlt | Hge]; [| done].
      exfalso. pose proof (getLevel_mono xp (sumFirst levelTable 99 - 1) ltac:(lia)) as Hm.
      change (getLevel (sumFirst levelTable 99 - 1)) with 99 in Hm. lia.
    + destruct (getLevel_band xp Hxp Hlow) as (j & Hj & Hlevel' & Hlo & Hhi).
      assert (j = k) as -> by lia. split; [done | by intros _].
  - intros [Hlo Hhi]. destruct (decide (k < 99)%nat) as [Hlt | Hge].
    + unfold getLevel, getLevel_in.
      rewrite (getLevel_from_first xp levelTable 0 0 k); [lia | | |].
      * by rewrite levelTable_length.
      * specialize (Hhi Hlt). lia.
      * intros j Hj.
        pose proof (sumFirst_mono levelTable levelTable_positive (S j) k ltac:(lia)). lia.
    + assert (k = 99%nat) as -> by lia.
      pose proof (getLevel_bounds xp) as Hb.
      destruct (Z.le_gt_cases 100 (getLevel xp)) as [Hcap | Hlow]; [lia |].
      destruct (getLevel_band xp Hxp Hlow) as (j & Hj & Hlevel' & Hlo' & Hhi').
      pose proof (sumFirst_mono levelTable levelTable_positive (S j) 99 ltac:(lia)). lia.
Qed.

Lemma getLevel_band_iff_witness :
  0 ≤ 1040 ∧ (2 < 100)%nat ∧ getLevel 1040 = 3 ∧ sumFirst levelTable 2 = 1040.
Proof.
  assert (0 ≤ 1040) as H0 by lia. assert (2 < 100)%nat as H1 by lia.
  split_and!; [exact H0 | exact H1 | | reflexivity].
  apply (getLevel_band_iff 1040 2 H0 H1). split; [vm_compute; discriminate |].
  intros _. vm_compute. reflexivity.
Defined.


(** ** Level rewards *)

Lemma rewardAt_1 : is_Some (rewardAt 1).
Proof. by eexists. Qed.

Lemma scanDown_low n i : i < 1 → scanDown n i = 1.
Proof. intros H. destruct n; cbn [scanDown]; [done |]. destruct (Z.leb_spec 1 i); [lia | done]. Qed.

Lemma scanDown_spec n : ∀ i,
  i ≤ Z.of_nat n → 1 ≤ i →
  1 ≤ scanDown n i ≤ i ∧ is_Some (rewardAt (scanDown n i)) ∧
  ∀ j, scanDown n i < j ≤ i → rewardAt j = None.
Proof.
  induction n as [|n IH]; intros i Hn Hi; [lia |].
  cbn [scanDown]. destruct (Z.leb_spec 1 i); [| lia].
  destruct (rewardAt i) as [r|] eqn:E.
  - split_and!; [lia | lia | by rewrite E | intros j Hj; lia].
  - assert (i ≠ 1) as Hne.
    { intros ->. destruct rewardAt_1 as [r Hr]. congruence. }
    destruct (IH (i - 1) ltac:(lia) ltac:(lia)) as (Hb & Hs & Hnone).
    split_and!; [lia | lia | done |].
    intros j Hj. destruct (decide (j = i)) as [-> | Hji]; [done |]. apply Hnone. lia.
Qed.

(** [getLevelRewards] gives the reward of the nearest milestone at or
    below the level: no milestone lies strictly between the one it picks
    and the level; below level [1] it gives the reward of level [1]; and
    the milestone it picks always has an entry, so the fallback object
    after [||] is never returned. *)
Theorem getLevelRewards_nearest_below (level : Z) :
  (1 ≤ level →
   1 ≤ rewardLevel level ≤ level ∧
   rewardAt (rewardLevel level) = Some (getLevelRewards level) ∧
   ∀ j, rewardLevel level < j ≤ level → rewardAt j = None) ∧
  (level < 1 → rewardLevel level = 1 ∧ getLevelRewards level = getLevelRewards 1) ∧
  is_Some (rewardAt (rewardLevel level)) ∧
  (rewardLevel 10 = 10 ∧ rewardLevel 14 = 10 ∧ rewardLevel 15 = 15 ∧ rewardLevel 99 = 90).
Proof.
  assert (level < 1 → rewardLevel level = 1) as Hlow
    by (intros H; by apply scanDown_low).
  split; [| split; [| split]].
  - intros H. unfold getLevelRewards, rewardLevel.
    destruct (scanDown_spec (Z.to_nat level) level ltac:(lia) H) as (Hb & [r Hr] & Hnone).
    rewrite Hr. split_and!; [lia | lia | reflexivity | exact Hnone].
  - intros H. split; [by apply Hlow |]. unfold getLevelRewards. by rewrite (Hlow H).
  - destruct (Z.lt_ge_cases level 1) as [H | H].
    + rewrite (Hlow H). apply rewardAt_1.
    + apply (scanDown_spec (Z.to_nat level) level); lia.
  - split_and!; reflexivity.
Qed.

(** ** The motivational message *)

(** From level 3 on, the cost entry that [getXPToNextLevel] reads is no
    more than the XP it takes to reach the level. *)
Lemma next_cost_below_level_start (k : nat) :
  (2 ≤ k < 99)%nat → nth (S k) levelTable 0 ≤ sumFirst levelTable k.
Proof.
  intros Hk.
  assert (forallb (λ k, nth (S k) levelTable 0 <=? sumFirst levelTable k) (seq 2 97) = true)
    as Hall by (vm_compute; reflexivity).
  rewrite forallb_forall in Hall. apply Z.leb_le, Hall, in_seq. lia.
Qed.

(** What the player is told.  At level 100 it is the master message.
    Below level 100, from [533] XP on, it is always the message that
    announces how much XP is missing for the next reward, and from [583]
    XP on the amount it announces is zero or negative.  Below [533] XP
    it is that message or the beginner's one.  So the messages for level
    10 and level 25, and the master message below level 100, are never
    shown. *)
Theorem getMotivationalMessage_cases (totalXP : Z) :
  (100 ≤ getLevel totalXP → getMotivationalMessage totalXP = masterMessage) ∧
  (getLevel totalXP < 100 → 533 ≤ totalXP →
   getMotivationalMessage totalXP = nearMessage (getXPToNextLevel totalXP) ∧
   (583 ≤ totalXP → getXPToNextLevel totalXP ≤ 0)) ∧
  (totalXP < 533 →
   getMotivationalMessage totalXP = nearMessage (getXPToNextLevel totalXP) ∨
   getMotivationalMessage totalXP = everyStepMessage).
Proof.
  split_and!.
  - intros Hcap. unfold getMotivationalMessage.
    destruct (Z.ltb_spec (getLevel totalXP) 100); [lia |]. rewrite andb_false_r.
    destruct (Z.leb_spec 50 (getLevel totalXP)); [reflexivity | lia].
  - intros Hlow Hxp.
    destruct (getLevel_band totalXP ltac:(lia) Hlow) as (k & Hk & Hlevel & Hlo & Hhi).
    assert (getXPToNextLevel totalXP = nth (S k) levelTable 0 - totalXP) as Hnext.
    { rewrite getXPToNextLevel_below_cap by done. rewrite Hlevel.
      replace (Z.of_nat k + 1) with (Z.of_nat (S k)) by lia. by rewrite tableAt_nat. }
    assert (k ≠ 0%nat) as Hk0.
    { intros ->. change (sumFirst levelTable 1) with 500 in Hhi. lia. }
    assert (nth (S k) levelTable 0 - 50 ≤ totalXP ∧
            (583 ≤ totalXP → nth (S k) levelTable 0 ≤ totalXP)) as [Hnear Hneg].
    { destruct (decide (k = 1%nat)) as [-> | Hk1].
      - change (nth 2 levelTable 0) with 583. lia.
      - pose proof (next_cost_below_level_start k ltac:(lia)). lia. }
    split; [| rewrite Hnext; lia].
    unfold getMotivationalMessage, nearMessage.
    destruct (Z.leb_spec (getXPToNextLevel totalXP) 50); [| lia].
    destruct (Z.ltb_spec (getLevel totalXP) 100); [reflexivity | lia].
  - intros Hxp. pose proof (getLevel_mono totalXP 532 ltac:(lia)) as Hm.
    change (getLevel 532) with 2 in Hm.
    unfold getMotivationalMessage, nearMessage, everyStepMessage.
    destruct (_ && _); [by left | right].
    destruct (Z.leb_spec 50 (getLevel totalXP)); [lia |].
    destruct (Z.leb_spec 25 (getLevel totalXP)); [lia |].
    destruct (Z.leb_spec 10 (getLevel totalXP)); [lia | reflexivity].
Qed.

End ProgressionMore.

(** * Further properties of the quest state machine and the scheduler *)

Module QuestMore.
Import Quests QuestFacts.

(** ** Daily quests *)

Lemma addXPs_others (l : list DailyQuest.t) : ∀ s,
  let s' := foldl (λ s quest, setUserProfile (addXP (DailyQuest.xp quest)) s) s l in
  mainQuests s' = mainQuests s ∧ dailyQuests s' = dailyQuests s ∧
  completedQuests s' = completedQuests s ∧ pendingBonus s' = pendingBonus s ∧
  totalXP s' = totalXP s + foldr Z.add 0 (map DailyQuest.xp l).
Proof.
  induction l as [|q l IH]; intros s; cbn [foldl map foldr]; [split_and!; (done || lia) |].
  destruct (IH (setUserProfile (addXP (DailyQuest.xp q)) s)) as (-> & -> & -> & -> & ->).
  unfold totalXP. cbn. split_and!; (done || lia).
Qed.

Lemma dailyMatches_completeDaily questId quest :
  dailyMatches questId (completeDaily quest) = false.
Proof. unfold dailyMatches. cbn. apply andb_false_r. Qed.

Lemma handleQuestComplete_dailyQuests questId s :
  dailyQuests (handleQuestComplete questId s)
  = map (λ quest, if dailyMatches questId quest then completeDaily quest else quest)
        (dailyQuests s).
Proof.
  unfold handleQuestComplete.
  by destruct (addXPs_others (List.filter (dailyMatches questId) (dailyQuests s))
    (setDailyQuests (map (λ quest, if dailyMatches questId quest then completeDaily quest else quest)) s))
    as (_ & -> & _).
Qed.

Lemma filter_none {A} (p : A → bool) l : (∀ x, In x l → p x = false) → List.filter p l = [].
Proof.
  induction l as [|x l IH]; intros H; [reflexivity |].
  cbn [List.filter]. rewrite H by by left. apply IH. intros y Hy. apply H. by right.
Qed.

Lemma setDailyQuests_same f s : f (dailyQuests s) = dailyQuests s → setDailyQuests f s = s.
Proof. destruct s. unfold setDailyQuests. cbn. by intros ->. Qed.

Lemma handleQuestComplete_nothing_pending questId s :
  (∀ quest, In quest (dailyQuests s) → dailyMatches questId quest = false) →
  handleQuestComplete questId s = s.
Proof.
  intros H. unfold handleQuestComplete. rewrite (filter_none _ _ H). cbn [foldl].
  apply setDailyQuests_same, map_id_on. intros quest Hin. by rewrite (H quest Hin).
Qed.

Lemma handleQuestComplete_again questId s :
  handleQuestComplete questId (handleQuestComplete questId s) = handleQuestComplete questId s.
Proof.
  apply handleQuestComplete_nothing_pending. intros quest.
  rewrite handleQuestComplete_dailyQuests. intros (q & <- & _)%in_map_iff.
  destruct (dailyMatches questId q) eqn:E; [apply dailyMatches_completeDaily | done].
Qed.

(** Completing a daily quest a second time in a row, or completing one
    that is unknown or already completed, leaves the whole state as it
    is: no XP is awarded twice. *)
Theorem handleQuestComplete_idempotent (questId : Z) (s : State) :
  handleQuestComplete questId (handleQuestComplete questId s) = handleQuestComplete questId s ∧
  ((∀ quest, In quest (dailyQuests s) → DailyQuest.id quest = questId →
             DailyQuest.completed quest = true) →
   handleQuestComplete questId s = s).
Proof.
  split.
  - apply handleQuestComplete_again.
  - intros H. apply handleQuestComplete_nothing_pending. intros quest Hin.
    unfold dailyMatches. destruct (Z.eqb_spec (DailyQuest.id quest) questId) as [Hid | Hid]; [| done].
    by rewrite (H quest Hin Hid).
Qed.

Lemma filter_unique_daily questId (l : list DailyQuest.t) quest :
  NoDup (map DailyQuest.id l) → In quest l → DailyQuest.id quest = questId →
  DailyQuest.completed quest = false →
  List.filter (dailyMatches questId) l = [quest].
Proof.
  induction l as [|q l IH]; intros Hnd Hin Hid Hopen; [destruct Hin |].
  cbn [map] in Hnd. apply NoDup_cons in Hnd as [Hnin Hnd]. rewrite list_elem_of_In in Hnin.
  cbn [List.filter]. destruct Hin as [-> | Hin].
  - unfold dailyMatches at 1. rewrite Hid, Z.eqb_refl, Hopen. cbn. f_equal.
    apply filter_none. intros x Hx. unfold dailyMatches.
    destruct (Z.eqb_spec (DailyQuest.id x) questId) as [Hx' | Hx']; [| done].
    exfalso. apply Hnin. rewrite Hid, <- Hx'. by apply in_map.
  - assert (dailyMatches questId q = false) as ->.
    { unfold dailyMatches. destruct (Z.eqb_spec (DailyQuest.id q) questId) as [Hq | Hq]; [| done].
      exfalso. apply Hnin. rewrite Hq, <- Hid. by apply in_map. }
    by apply IH.
Qed.

Lemma handleQuestComplete_pending (questId : Z) (s : State) (quest : DailyQuest.t) :
  NoDup (dailyIds s) → In quest (dailyQuests s) → DailyQuest.id quest = questId →
  DailyQuest.completed quest = false →
  totalXP (handleQuestComplete questId s) = totalXP s + DailyQuest.xp quest ∧
  dailyQuests (handleQuestComplete questId s)
  = map (λ q, if DailyQuest.id q =? questId then completeDaily q else q) (dailyQuests s) ∧
  mainQuests (handleQuestComplete questId s) = mainQuests s ∧
  completedQuests (handleQuestComplete questId s) = completedQuests s ∧
  pendingBonus (handleQuestComplete questId s) = pendingBonus s.
Proof.
  intros Hnd Hin Hid Hopen. unfold handleQuestComplete.
  rewrite (filter_unique_daily questId _ quest Hnd Hin Hid Hopen). cbn [foldl].
  unfold totalXP. cbn. split_and!; try done.
  apply map_ext_in. intros q Hq. unfold dailyMatches.
  destruct (Z.eqb_spec (DailyQuest.id q) questId) as [Hq' | Hq']; [| done].
  destruct (DailyQuest.completed q) eqn:E; [| done]. cbn.
  destruct q. cbn in *. by subst.
Qed.

(** Completing a pending daily quest, the ids of the daily quests being
    distinct, adds exactly its [xp] to [totalXP], marks it completed,
    and touches no other daily quest, no main quest and not the
    completion ledger. *)
Theorem handleQuestComplete_awards_once (questId : Z) (s : State) (quest : DailyQuest.t) :
  NoDup (dailyIds s) → In quest (dailyQuests s) → DailyQuest.id quest = questId →
  DailyQuest.completed quest = false →
  let s' := handleQuestComplete questId s in
  totalXP s' = totalXP s + DailyQuest.xp quest ∧
  dailyQuests s' = map (λ q, if DailyQuest.id q =? questId then completeDaily q else q)
                       (dailyQuests s) ∧
  mainQuests s' = mainQuests s ∧ completedQuests s' = completedQuests s ∧
  pendingBonus s' = pendingBonus s.
Proof.
  intros Hnd Hin Hid Hopen s'. subst s'. by apply handleQuestComplete_pending.
Qed.

Lemma handleQuestComplete_awards_once_witness :
  NoDup (dailyIds Table.smallState) ∧ In Table.daily_1 (dailyQuests Table.smallState) ∧
  totalXP (handleQuestComplete 1 Table.smallState) = 100.
Proof.
  assert (NoDup (dailyIds Table.smallState)) as Hnd by by_computation.
  assert (In Table.daily_1 (dailyQuests Table.smallState)) as Hin by (left; reflexivity).
  split_and!; [exact Hnd | exact Hin |].
  by destruct (handleQuestComplete_awards_once 1 Table.smallState Table.daily_1 Hnd Hin eq_refl eq_refl)
    as [-> _].
Defined.


(** After [resetDailyQuests] every daily quest can be completed again,
    whether or not it was completed before: the first completion adds
    its [xp] to [totalXP] once more, a second one adds nothing. *)
Theorem daily_xp_once_per_cycle (currentDate : string) (s : State) (quest : DailyQuest.t) :
  NoDup (dailyIds s) → In quest (dailyQuests s) →
  let s1 := handleQuestComplete (DailyQuest.id quest) (resetDailyQuests currentDate s) in
  totalXP s1 = totalXP s + DailyQuest.xp quest ∧
  handleQuestComplete (DailyQuest.id quest) s1 = s1.
Proof.
  intros Hnd Hin. cbn zeta. split; [| apply handleQuestComplete_again].
  destruct (handleQuestComplete_pending (DailyQuest.id quest) (resetDailyQuests currentDate s)
              (resetDaily quest)) as [-> _]; try done.
  - unfold dailyIds in *. cbn. rewrite map_map. by erewrite map_ext.
  - cbn. by apply (in_map resetDaily).
Qed.

Lemma daily_xp_once_per_cycle_witness :
  NoDup (dailyIds (handleQuestComplete 1 Table.smallState)) ∧
  In (completeDaily Table.daily_1) (dailyQuests (handleQuestComplete 1 Table.smallState)) ∧
  totalXP (handleQuestComplete (DailyQuest.id (completeDaily Table.daily_1))
             (resetDailyQuests "2024-01-02" (handleQuestComplete 1 Table.smallState)))
  = totalXP (handleQuestComplete 1 Table.smallState) + DailyQuest.xp (completeDaily Table.daily_1) ∧
  totalXP (handleQuestComplete 1 Table.smallState) + DailyQuest.xp (completeDaily Table.daily_1)
  = 200.
Proof.
  assert (NoDup (dailyIds (handleQuestComplete 1 Table.smallState))) as Hnd by by_computation.
  assert (In (completeDaily Table.daily_1) (dailyQuests (handleQuestComplete 1 Table.smallState)))
    as Hin by (left; reflexivity).
  split_and!; [exact Hnd | exact Hin | | vm_compute; reflexivity].
  apply (daily_xp_once_per_cycle "2024-01-02" _ _ Hnd Hin).
Defined.

(** ** Main quests: what a toggle keeps *)

Lemma Forall2_map_self {A} (R : A → A → Prop) (f : A → A) l :
  (∀ x, R x (f x)) → Forall2 R l (map f l).
Proof. intros H. induction l; cbn; constructor; auto. Qed.

Lemma stepKept_updateStep stepId step : stepKept step (updateStep stepId step).
Proof.
  unfold stepKept. rewrite updateStep_completed. destruct step as [i t c].
  unfold updateStep. cbn.
  split_and!; [by destruct (_ && _) | by destruct (_ && _) | by intros ->].
Qed.

Lemma stepKept_refl step : stepKept step step.
Proof. by unfold stepKept. Qed.

Lemma questKept_toggleInQuest cq questId stepId quest :
  questKept quest (fst (toggleInQuest cq questId stepId quest)).
Proof.
  unfold questKept, toggleInQuest.
  destruct (String.eqb (MainQuest.id quest) questId); cbn; split_and!; try done.
  - apply Forall2_map_self, stepKept_updateStep.
  - rewrite <- (map_id (MainQuest.steps quest)) at 2. apply Forall2_map_self, stepKept_refl.
Qed.

Lemma toggleQuestStep_kept questId stepId s :
  Forall2 questKept (mainQuests s) (mainQuests (toggleQuestStep questId stepId s)).
Proof.
  rewrite toggleQuestStep_mainQuests. apply Forall2_map_self.
  intros quest. apply questKept_toggleInQuest.
Qed.

(** [toggleQuestStep] never removes, adds or reorders a quest or a step,
    never changes an id, a text or a quest's XP, never turns a completed
    step back, never takes a quest out of [completedQuests], and leaves
    the daily quests alone. *)
Theorem toggleQuestStep_keeps (questId stepId : string) (s : State) :
  Forall2 questKept (mainQuests s) (mainQuests (toggleQuestStep questId stepId s)) ∧
  completedQuests s ⊆ completedQuests (toggleQuestStep questId stepId s) ∧
  dailyQuests (toggleQuestStep questId stepId s) = dailyQuests s.
Proof.
  split_and!.
  - apply toggleQuestStep_kept.
  - rewrite toggleQuestStep_completedQuests. intros q Hq. by apply ledgerAfter_mono.
  - unfold toggleQuestStep. by rewrite applyAwards_dailyQuests.
Qed.

(** ** The stored progress after a toggle *)

Lemma roundPercent_bounds (c n : nat) :
  (c ≤ n)%nat → (0 < n)%nat → 0 ≤ roundPercent c n ≤ 100.
Proof.
  intros Hc Hn. unfold roundPercent. split.
  - apply Z.div_pos; lia.
  - assert ((200 * Z.of_nat c + Z.of_nat n) / (2 * Z.of_nat n) < 101); [| lia].
    apply Z.div_lt_upper_bound; lia.
Qed.

Lemma roundPercent_20 (c : nat) : roundPercent c 20 = 5 * Z.of_nat c.
Proof.
  unfold roundPercent. symmetry. apply (Z.div_unique _ _ _ 20); lia.
Qed.

Lemma completedCount_le steps : (completedCount steps ≤ length steps)%nat.
Proof. unfold completedCount. apply filter_length_le. Qed.

(** After a call, every quest with the id of the call stores the
    progress that [getQuestProgress] computes from its steps, a number
    from 0 to 100 when the quest has steps and five times the number of
    completed steps for a quest of twenty steps; a quest with another id
    is the quest it was. *)
Theorem toggleQuestStep_progress (questId stepId : string) (s : State) :
  Forall (λ quest',
            (MainQuest.id quest' = questId →
             MainQuest.progress quest' = getQuestProgress quest' ∧
             (MainQuest.steps quest' ≠ [] → 0 ≤ MainQuest.progress quest' ≤ 100) ∧
             (length (MainQuest.steps quest') = 20%nat →
              MainQuest.progress quest'
              = 5 * Z.of_nat (completedCount (MainQuest.steps quest')))) ∧
            (MainQuest.id quest' ≠ questId → In quest' (mainQuests s)))
         (mainQuests (toggleQuestStep questId stepId s)).
Proof.
  rewrite toggleQuestStep_mainQuests. apply Forall_forall.
  intros quest' (quest & <- & Hin)%list_elem_of_In%in_map_iff.
  rewrite toggleInQuest_id. unfold toggleInQuest, getQuestProgress.
  destruct (String.eqb_spec (MainQuest.id quest) questId) as [Hid | Hid]; cbn [fst].
  - split; [intros _ | done]. cbn [MainQuest.progress MainQuest.steps].
    rewrite length_map. split_and!.
    + done.
    + intros Hne. rewrite <- (length_map (updateStep stepId)).
      apply roundPercent_bounds; [apply completedCount_le |].
      destruct (map (updateStep stepId) (MainQuest.steps quest)); [done | cbn; lia].
    + intros Hlen. rewrite Hlen. apply roundPercent_20.
  - split; [done | by intros _].
Qed.

(** ** XP is never retracted *)

Lemma questAwards_nonneg cq questId stepId quest :
  0 ≤ questBonus quest →
  0 ≤ awardsTotal (questAwards cq questId stepId quest
                     (map (updateStep stepId) (MainQuest.steps quest))).
Proof.
  intros H.
  destruct (questAwards_cases cq questId stepId quest)
    as [[-> _] | [_ [[-> _] | (-> & _ & _)]]]; unfold awardsTotal, stepXP; cbn; lia.
Qed.

Lemma awardsTotal_app l k : awardsTotal (l ++ k) = awardsTotal l + awardsTotal k.
Proof. unfold awardsTotal. by rewrite map_app, foldr_add_app. Qed.

Lemma toggleAwards_nonneg questId stepId s :
  Forall (λ quest, 0 ≤ questBonus quest) (mainQuests s) →
  0 ≤ awardsTotal (toggleAwards questId stepId s).
Proof.
  unfold toggleAwards. generalize (completedQuests s) as cq.
  induction 1 as [|quest quests Hq _ IH]; intros; [done |].
  cbn [map concat]. rewrite awardsTotal_app, toggleInQuest_awards.
  destruct (String.eqb _ _).
  - pose proof (questAwards_nonneg cq questId stepId quest Hq). lia.
  - unfold awardsTotal at 1. cbn. lia.
Qed.

Lemma sum_nonneg (l : list Z) : Forall (λ x, 0 ≤ x) l → 0 ≤ foldr Z.add 0 l.
Proof. induction 1; cbn; lia. Qed.

Lemma step_settledXP (s : State) (a : Action) :
  awardsNonNegative s →
  settledXP s ≤ settledXP (step s a) ∧ awardsNonNegative (step s a).
Proof.
  intros [Hd Hm]. destruct a as [questId stepId | questId | | currentDate |]; cbn [step].
  - rewrite toggleQuestStep_settledXP.
    pose proof (toggleAwards_nonneg questId stepId s Hm). split; [lia |].
    unfold awardsNonNegative. unfold toggleQuestStep at 1. rewrite applyAwards_dailyQuests.
    split; [done |]. rewrite toggleQuestStep_mainQuests.
    rewrite Forall_forall in Hm. apply Forall_forall.
    intros quest' (quest & <- & Hin)%list_elem_of_In%in_map_iff.
    rewrite toggleInQuest_bonus. by apply Hm, list_elem_of_In.
  - unfold handleQuestComplete.
    destruct (addXPs_others (List.filter (dailyMatches questId) (dailyQuests s))
      (setDailyQuests (map (λ quest, if dailyMatches questId quest then completeDaily quest else quest)) s))
      as (Hmq & Hdq & _ & Hp & Hxp).
    unfold settledXP, awardsNonNegative. rewrite Hmq, Hdq, Hp, Hxp. cbn.
    assert (0 ≤ foldr Z.add 0 (map DailyQuest.xp (List.filter (dailyMatches questId) (dailyQuests s)))).
    { apply sum_nonneg. rewrite Forall_forall in Hd. apply Forall_forall.
      intros x (q & <- & Hq)%list_elem_of_In%in_map_iff.
      apply Hd, list_elem_of_In. by apply filter_In in Hq as [? _]. }
    split; [unfold totalXP in *; cbn; lia |]. split; [| done].
    rewrite Forall_forall in Hd. apply Forall_forall.
    intros quest' (quest & <- & Hin)%list_elem_of_In%in_map_iff.
    destruct (dailyMatches questId quest); [cbn |]; by apply Hd, list_elem_of_In.
  - split; [done |]. split; [done |]. cbn.
    rewrite Forall_forall in Hm. apply Forall_forall.
    intros quest' (quest & <- & Hin)%list_elem_of_In%in_map_iff.
    change (questBonus (resetQuest quest)) with (questBonus quest).
    by apply Hm, list_elem_of_In.
  - split; [done |]. split; [| done]. cbn.
    rewrite Forall_forall in Hd. apply Forall_forall.
    intros quest' (quest & <- & Hin)%list_elem_of_In%in_map_iff.
    change (DailyQuest.xp (resetDaily quest)) with (DailyQuest.xp quest).
    by apply Hd, list_elem_of_In.
  - destruct (runTimers_facts s) as (Hmq & _ & Hdq & _ & _ & Hx).
    rewrite Hx. split; [done |]. unfold awardsNonNegative. by rewrite Hmq, Hdq.
Qed.

Lemma run_settledXP (s : State) (actions : list Action) :
  awardsNonNegative s → settledXP s ≤ settledXP (run s actions).
Proof.
  revert s. induction actions as [|a actions IH]; intros s H; [done |].
  unfold run in *. cbn [foldl]. destruct (step_settledXP s a H) as [Hle H'].
  specialize (IH (step s a) H'). lia.
Qed.

(** Along any session (toggles, daily completions, both resets, timers)
    the XP total, pending bonuses included, never goes down, as long as
    no quest of the tables carries a negative award; the two resets leave
    [totalXP] exactly as it is. *)
Theorem xp_never_retracted (s : State) (actions : list Action) :
  awardsNonNegative s →
  settledXP s ≤ settledXP (run s actions) ∧
  totalXP (resetAllQuests s) = totalXP s ∧
  (∀ currentDate, totalXP (resetDailyQuests currentDate s) = totalXP s).
Proof. intros H. split; [by apply run_settledXP | done]. Qed.

(** The level, read off the XP total with the pending bonuses counted
    in, never goes down along a session either: no operation, the two
    resets included, costs the player a level. *)
Theorem level_never_lost (s : State) (actions : list Action) :
  awardsNonNegative s →
  Progression.getLevel (settledXP s) ≤ Progression.getLevel (settledXP (run s actions)).
Proof. intros H. by apply ProgressionFacts.getLevel_mono, run_settledXP. Qed.

Lemma level_never_lost_witness :
  awardsNonNegative Table.smallState ∧
  Progression.getLevel (settledXP Table.smallState)
  ≤ Progression.getLevel (settledXP (run Table.smallState (map (λ c, ToggleStep (fst c) (snd c)) Table.replay))) ∧
  Progression.getLevel (settledXP (run Table.smallState (map (λ c, ToggleStep (fst c) (snd c)) Table.replay))) = 3.
Proof.
  assert (awardsNonNegative Table.smallState) as H.
  { split; repeat constructor; vm_compute; discriminate. }
  split_and!; [exact H | apply (level_never_lost _ _ H) | vm_compute; reflexivity].
Defined.

Lemma xp_never_retracted_witness :
  awardsNonNegative Table.smallState ∧
  settledXP Table.smallState ≤ settledXP (run Table.smallState Table.sampleSession) ∧
  settledXP (run Table.smallState Table.sampleSession) = 220.
Proof.
  assert (awardsNonNegative Table.smallState) as H.
  { split; repeat constructor; vm_compute; discriminate. }
  split_and!; [exact H | apply (xp_never_retracted _ Table.sampleSession H) | vm_compute; reflexivity].
Defined.


(** ** The completion ledger is exact *)

Lemma count_allCompleted steps :
  completedCount steps = length steps → forallb Step.completed steps = true.
Proof.
  unfold completedCount. induction steps as [|st steps IH]; [done |].
  cbn [List.filter forallb length]. destruct (Step.completed st); cbn [length andb].
  - intros [= H]. by apply IH.
  - intros H. pose proof (filter_length_le Step.completed steps). lia.
Qed.

Lemma allCompleted_updateStep stepId steps :
  forallb Step.completed steps = true →
  forallb Step.completed (map (updateStep stepId) steps) = true.
Proof.
  induction steps as [|st steps IH]; [done |].
  cbn [map forallb]. intros [Hs Hr]%andb_true_iff.
  rewrite updateStep_completed, Hs, IH; done.
Qed.

Lemma questKept_ids l l' :
  Forall2 questKept l l' → map MainQuest.id l' = map MainQuest.id l.
Proof. induction 1 as [|q q' l l' Hq _ IH]; [done |]. cbn. f_equal; [apply Hq | done]. Qed.

Lemma questKept_In l l' quest' :
  Forall2 questKept l l' → In quest' l' → ∃ quest, In quest l ∧ questKept quest quest'.
Proof.
  induction 1 as [|q q' l l' Hq _ IH]; intros Hin'; [destruct Hin' |].
  destruct Hin' as [<- | Hin'].
  - exists q. split; [by left | done].
  - destruct (IH Hin') as (quest & Hin & Hk). exists quest. split; [by right | done].
Qed.

Lemma stepKept_ids l l' : Forall2 stepKept l l' → map Step.id l' = map Step.id l.
Proof. induction 1 as [|st st' l l' Hs _ IH]; [done |]. cbn. f_equal; [apply Hs | done]. Qed.

Lemma wellFormed_questIds (s s' : State) :
  wellFormed s →
  Forall2 questKept (mainQuests s) (mainQuests s') →
  wellFormed s'.
Proof.
  intros [Hnd Hsteps] Hkept.
  split; [unfold questIds in *; by rewrite (questKept_ids _ _ Hkept) |].
  intros quest' Hin'.
  destruct (questKept_In _ _ quest' Hkept Hin') as (quest & Hin & Hq).
  destruct (Hsteps quest Hin) as [Hne Hnds].
  destruct Hq as (_ & _ & _ & _ & _ & _ & _ & Hst).
  split; [| by rewrite (stepKept_ids _ _ Hst)].
  intros Hnil. rewrite Hnil in Hst. inversion Hst. congruence.
Qed.

Lemma questKept_resetQuest quest :
  MainQuest.id (resetQuest quest) = MainQuest.id quest ∧
  map Step.id (MainQuest.steps (resetQuest quest)) = map Step.id (MainQuest.steps quest).
Proof. split; [done |]. cbn. rewrite map_map. by apply map_ext. Qed.

Lemma step_ledgerExact (s : State) (a : Action) :
  wellFormed s → ledgerExact s → wellFormed (step s a) ∧ ledgerExact (step s a).
Proof.
  intros Hwf Hex. destruct a as [questId stepId | questId | | currentDate |]; cbn [step].
  - pose proof (toggleQuestStep_kept questId stepId s) as Hkept.
    split; [by apply (wellFormed_questIds s) |].
    destruct Hwf as [Hnd Hsteps].
    intros quest'. rewrite toggleQuestStep_mainQuests.
    intros (quest & <- & Hin)%in_map_iff. rewrite toggleInQuest_id. split.
    + rewrite toggleQuestStep_completedQuests, elem_of_ledgerAfter.
      unfold allCompleted. rewrite toggleInQuest_steps.
      intros [Hold | Hnew].
      * apply (Hex quest Hin) in Hold. unfold allCompleted in Hold.
        destruct (String.eqb _ _); [by apply allCompleted_updateStep | done].
      * destruct (toggleAwards_bonuses questId stepId s (MainQuest.id quest) Hnd)
          as [Hb | (Hid & _ & quest0 & Hfind & _ & _ & _ & Hcount)]; [done |].
        rewrite (findQuest_unique questId _ quest Hnd Hin Hid) in Hfind.
        injection Hfind as <-. rewrite (proj2 (String.eqb_eq _ _) Hid).
        apply count_allCompleted. by rewrite length_map.
    + intros Hall.
      apply (toggleQuestStep_ledgerCovers questId stepId s (MainQuest.id quest) Hnd)
        with (quest := fst (toggleInQuest (completedQuests s) questId stepId quest)).
      * intros q Hq _. by apply Hsteps.
      * intros q Hq Hqid Hqall. rewrite <- Hqid. by apply (Hex q Hq).
      * rewrite toggleQuestStep_mainQuests.
        by apply (in_map (λ quest, fst (toggleInQuest (completedQuests s) questId stepId quest))).
      * apply toggleInQuest_id.
      * done.
  - unfold handleQuestComplete.
    destruct (addXPs_others (List.filter (dailyMatches questId) (dailyQuests s))
      (setDailyQuests (map (λ quest, if dailyMatches questId quest then completeDaily quest else quest)) s))
      as (Hmq & _ & Hcq & _ & _).
    unfold wellFormed, ledgerExact, questIds. rewrite Hmq, Hcq. by split.
  - destruct Hwf as [Hnd Hsteps]. split.
    + split.
      * unfold questIds. cbn. rewrite map_map. by erewrite map_ext.
      * intros quest' (quest & <- & Hin)%in_map_iff. destruct (Hsteps quest Hin) as [Hne Hnds].
        split; [cbn; by destruct (MainQuest.steps quest) |].
        by rewrite (proj2 (questKept_resetQuest quest)).
    + intros quest' (quest & <- & Hin)%in_map_iff. cbn [resetAllQuests completedQuests setCompletedQuests].
      destruct (Hsteps quest Hin) as [Hne _]. split; [set_solver |].
      unfold allCompleted. cbn. destruct (MainQuest.steps quest); [done | discriminate].
  - by split.
  - destruct (runTimers_facts s) as (Hmq & Hcq & _).
    unfold wellFormed, ledgerExact, questIds. rewrite Hmq, Hcq. by split.
Qed.

(** Starting from a well-formed quest table whose ledger is exact (as
    in the start state, where nothing is completed), after any session
    a main quest is in [completedQuests] exactly when all its steps are
    completed. *)
Theorem ledger_exact_invariant (s : State) (actions : list Action) :
  wellFormed s → ledgerExact s →
  wellFormed (run s actions) ∧ ledgerExact (run s actions).
Proof.
  revert s. induction actions as [|a actions IH]; intros s Hwf Hex; [done |].
  unfold run in *. cbn [foldl]. destruct (step_ledgerExact s a Hwf Hex) as [Hwf' Hex'].
  by apply IH.
Qed.

Lemma smallState_wellFormed : wellFormed Table.smallState.
Proof.
  split; [by_computation |].
  intros quest [<- | [<- | []]]; (split; [discriminate | by_computation]).
Qed.

Lemma smallState_ledgerExact : ledgerExact Table.smallState.
Proof.
  intros quest [<- | [<- | []]]; (split; [intros H; by apply not_elem_of_empty in H | discriminate]).
Qed.

Lemma ledger_exact_invariant_witness :
  wellFormed Table.smallState ∧ ledgerExact Table.smallState ∧
  ledgerExact (run Table.smallState Table.sampleSession).
Proof.
  split_and!; [exact smallState_wellFormed | exact smallState_ledgerExact |].
  apply (ledger_exact_invariant Table.smallState Table.sampleSession
           smallState_wellFormed smallState_ledgerExact).
Defined.

(** ** The bonus after a full reset *)




(** ** The category view *)

Lemma filter_category_ids category l l' :
  Forall2 questKept l l' →
  map MainQuest.id (List.filter (λ quest, String.eqb (MainQuest.category quest) category) l')
  = map MainQuest.id (List.filter (λ quest, String.eqb (MainQuest.category quest) category) l).
Proof.
  induction 1 as [|q q' l l' Hq _ IH]; [done |].
  destruct Hq as (Hid & _ & _ & _ & _ & Hcat & _).
  cbn [List.filter]. rewrite Hcat.
  destruct (String.eqb (MainQuest.category q) category); cbn [map]; by rewrite ?Hid, IH.
Qed.

(** The list a category shows holds quests of the table, each of that
    category unless the category is ['all'], and toggling a step never
    moves a quest into or out of the list or changes its order. *)
Theorem getFilteredQuests_stable (category questId stepId : string) (s : State) :
  (∀ quest, In quest (getFilteredQuests category s) →
     In quest (mainQuests s) ∧ (category = "all" ∨ MainQuest.category quest = category)) ∧
  map MainQuest.id (getFilteredQuests category (toggleQuestStep questId stepId s))
  = map MainQuest.id (getFilteredQuests category s).
Proof.
  pose proof (toggleQuestStep_kept questId stepId s) as Hkept.
  unfold getFilteredQuests.
  destruct (String.eqb_spec category "all") as [Hall | Hall]; split.
  - intros quest Hin. split; [done | by left].
  - by apply questKept_ids.
  - intros quest [Hin Hcat]%filter_In. split; [done | right]. by apply String.eqb_eq.
  - by apply filter_category_ids.
Qed.

End QuestMore.

Module SchedulerMore.
Import Quests Scheduler.

(** [resetDailyQuests] leaves every daily quest pending and keeps the
    quests otherwise. *)
Lemma resetDailyQuests_pending today s :
  Forall (λ quest, DailyQuest.completed quest = false)
         (dailyQuests (resetDailyQuests today s)) ∧
  map DailyQuest.id (dailyQuests (resetDailyQuests today s))
  = map DailyQuest.id (dailyQuests s) ∧
  map DailyQuest.xp (dailyQuests (resetDailyQuests today s))
  = map DailyQuest.xp (dailyQuests s).
Proof.
  split_and!.
  - cbn. apply Forall_forall. intros quest' Hin%list_elem_of_In.
    by apply in_map_iff in Hin as (quest & <- & _).
  - cbn. rewrite map_map. by apply map_ext.
  - cbn. rewrite map_map. by apply map_ext.
Qed.

(** The daily-reset effect.  [seen] is the [lastResetDate] of the render
    that ran the effect, [s] the state its setters apply to, [today] the
    date key that [getCurrentDateString] computes.

    The interval callback: when [shouldResetDailyQuests] holds it sets
    every daily quest to not completed, keeps the quests otherwise and
    stamps [today], after which a callback that computes the same date
    key changes nothing; when it does not hold, the callback changes
    nothing.

    A run of the effect on a render whose [lastResetDate] is not empty
    does what the callback does.  The run on a render whose
    [lastResetDate] is empty, the first after launch, stamps [today] over
    whatever date [s] holds, and from the cutover hour on it also sets
    every daily quest of [s] to not completed; before the cutover hour it
    keeps the daily quests.

    Neither touches XP, the main quests or the ledger. *)
Theorem daily_reset_effect (hostOffset : Z) (now : WallClock) (seen : string) (s : State) :
  let today := getCurrentDateString hostOffset now in
  let hour := getHours hostOffset (getKyivTime hostOffset now) in
  let tick := intervalTick hostOffset now seen s in
  let run := resetEffect hostOffset now seen s in
  (shouldResetDailyQuests seen hostOffset now = true →
   Forall (λ quest, DailyQuest.completed quest = false) (dailyQuests tick) ∧
   map DailyQuest.id (dailyQuests tick) = map DailyQuest.id (dailyQuests s) ∧
   map DailyQuest.xp (dailyQuests tick) = map DailyQuest.xp (dailyQuests s) ∧
   lastResetDate tick = today ∧
   ∀ hostOffset' now', getCurrentDateString hostOffset' now' = today →
     intervalTick hostOffset' now' (lastResetDate tick) tick = tick) ∧
  (shouldResetDailyQuests seen hostOffset now = false → tick = s) ∧
  (seen ≠ "" → run = tick) ∧
  (seen = "" →
   lastResetDate run = today ∧
   (cutoverHour ≤ hour →
    Forall (λ quest, DailyQuest.completed quest = false) (dailyQuests run) ∧
    map DailyQuest.id (dailyQuests run) = map DailyQuest.id (dailyQuests s) ∧
    map DailyQuest.xp (dailyQuests run) = map DailyQuest.xp (dailyQuests s)) ∧
   (hour < cutoverHour → dailyQuests run = dailyQuests s)) ∧
  (userProfile tick = userProfile s ∧ mainQuests tick = mainQuests s ∧
   completedQuests tick = completedQuests s) ∧
  (userProfile run = userProfile s ∧ mainQuests run = mainQuests s ∧
   completedQuests run = completedQuests s).
Proof.
  cbn zeta. split_and!.
  - intros Hdue. unfold intervalTick. rewrite Hdue.
    destruct (resetDailyQuests_pending (getCurrentDateString hostOffset now) s)
      as (Hpending & Hids & Hxp).
    split_and!; try done.
    intros hostOffset' now' Hsame. unfold intervalTick, shouldResetDailyQuests.
    cbn [lastResetDate resetDailyQuests setLastResetDate]. cbn zeta.
    by rewrite Hsame, String.eqb_refl.
  - intros Hdue. unfold intervalTick. by rewrite Hdue.
  - intros Hseen. unfold resetEffect, intervalTick.
    by destruct (String.eqb_spec seen "").
  - intros ->. unfold resetEffect.
    rewrite SchedulerFacts.shouldResetDailyQuests_first_run.
    cbn [String.eqb].
    destruct (Z.leb_spec cutoverHour (getHours hostOffset (getKyivTime hostOffset now)))
      as [Hge | Hlt].
    + split_and!; [done | | intros; lia]. intros _.
      apply (resetDailyQuests_pending _ (setLastResetDate _ s)).
    + split_and!; [done | intros; lia | done].
  - unfold intervalTick. by destruct (shouldResetDailyQuests _ _ _).
  - unfold intervalTick. by destruct (shouldResetDailyQuests _ _ _).
  - unfold intervalTick. by destruct (shouldResetDailyQuests _ _ _).
  - unfold resetEffect. by destruct (shouldResetDailyQuests _ _ _), (String.eqb _ _).
  - unfold resetEffect. by destruct (shouldResetDailyQuests _ _ _), (String.eqb _ _).
  - unfold resetEffect. by destruct (shouldResetDailyQuests _ _ _), (String.eqb _ _).
Qed.

End SchedulerMore.

(** * Further properties of the durable store *)

Module StorageMore.
Import Storage StorageFacts.

Lemma append_length (a b : string) :
  String.length (a +:+ b) = (String.length a + String.length b)%nat.
Proof. induction a as [|c a IH]; [done |]. simpl. by f_equal. Qed.

Lemma append_suffix_ne (key suffix : string) : suffix ≠ "" → key +:+ suffix ≠ key.
Proof.
  intros Hne Heq. apply (f_equal String.length) in Heq. rewrite append_length in Heq.
  destruct suffix; [done | cbn in Heq; lia].
Qed.

Lemma truthy_Some value : value ≠ "" → truthy (Some value) = true.
Proof. intros H. cbn. by destruct (String.eqb_spec value ""). Qed.

Lemma truthy_nonempty data : truthy data = true → ∃ value, data = Some value ∧ value ≠ "".
Proof.
  destruct data as [value|]; [| done]. cbn.
  destruct (String.eqb_spec value ""); [done |]. intros _. by exists value.
Qed.

(** When no read throws, [Storage.getItem] answers the first of
    [localStorage[key]], [sessionStorage[key]] and
    [sessionStorage[key + '_backup']] that is neither missing nor the
    empty string, and [null] exactly when none is.  Whatever the store,
    it never answers the empty string. *)
Theorem getItem_fallback_order (key : string) (w : Web) :
  (readThrows (localStorage w) = false → readThrows (sessionStorage w) = false →
   getItem key w = firstTruthy key w ∧
   (getItem key w = None ↔
    truthy (items (localStorage w) !! key) = false ∧
    truthy (items (sessionStorage w) !! key) = false ∧
    truthy (items (sessionStorage w) !! (key +:+ "_backup")) = false)) ∧
  getItem key w ≠ Some "".
Proof.
  split.
  - intros Hl Hs. rewrite (getItem_readable key w Hl Hs). split; [done |].
    unfold firstTruthy.
    destruct (truthy (items (localStorage w) !! key)) eqn:E1.
    { apply truthy_nonempty in E1 as (v & -> & _). split; [done | by intros (? & _)]. }
    destruct (truthy (items (sessionStorage w) !! key)) eqn:E2.
    { apply truthy_nonempty in E2 as (v & -> & _). split; [done | by intros (_ & ? & _)]. }
    destruct (truthy (items (sessionStorage w) !! (key +:+ "_backup"))) eqn:E3.
    { apply truthy_nonempty in E3 as (v & -> & _). split; [done | by intros (_ & _ & ?)]. }
    done.
  - unfold getItem, getItem_try, medium_getItem.
    destruct (readThrows (localStorage w)); [done |].
    destruct (truthy (items (localStorage w) !! key)) eqn:E1.
    { apply truthy_nonempty in E1 as (v & -> & Hv). congruence. }
    destruct (readThrows (sessionStorage w)); [done |].
    destruct (truthy (items (sessionStorage w) !! key)) eqn:E2.
    { apply truthy_nonempty in E2 as (v & -> & Hv). congruence. }
    destruct (truthy (items (sessionStorage w) !! (key +:+ "_backup"))) eqn:E3; [| done].
    apply truthy_nonempty in E3 as (v & -> & Hv). congruence.
Qed.

Lemma setItem_working key value now w :
  working w →
  setItem key value now w
  = mkWeb (mkMedium (<[key +:+ "_timestamp" := now]> (<[key := value]> (items (localStorage w))))
             false false)
          (mkMedium (<[key +:+ "_backup" := value]> (items (sessionStorage w))) false false).
Proof.
  intros (Hlr & Hlw & Hsr & Hsw). unfold setItem, medium_setItem.
  rewrite Hlw, Hsw. cbn [writeThrows readThrows]. by rewrite Hlr, Hsr.
Qed.


(** With both media working, what [Storage.setItem] saved under a key
    is what [Storage.getItem] answers for it, whatever the store held
    before, provided the value is not the empty string; the value is
    also in [sessionStorage] under [key + '_backup'] and the time of the
    save under [key + '_timestamp']. *)
Theorem setItem_getItem (key value now : string) (w : Web) :
  working w → value ≠ "" →
  let w' := setItem key value now w in
  getItem key w' = Some value ∧
  items (localStorage w') !! key = Some value ∧
  items (sessionStorage w') !! (key +:+ "_backup") = Some value ∧
  items (localStorage w') !! (key +:+ "_timestamp") = Some now ∧
  working w'.
Proof.
  intros (Hlr & Hlw & Hsr & Hsw) Hvalue. cbn zeta.
  unfold setItem, medium_setItem. rewrite Hlw, Hsw. cbn [writeThrows].
  assert (key +:+ "_timestamp" ≠ key) as Hts by by apply append_suffix_ne.
  unfold getItem, getItem_try, medium_getItem. cbn [localStorage sessionStorage items readThrows writeThrows].
  rewrite Hlr, lookup_insert_ne, lookup_insert_eq, (truthy_Some value Hvalue) by done.
  rewrite !lookup_insert_eq. by split_and!.
Qed.

Lemma setItem_getItem_witness :
  working usedStore ∧ "saved" ≠ "" ∧
  getItem "userProgressData" (setItem "userProgressData" "saved" "1700000000000" usedStore)
  = Some "saved".
Proof.
  assert (working usedStore) as Hw by by split_and!.
  assert ("saved" ≠ "") as Hv by discriminate.
  split_and!; [exact Hw | exact Hv |].
  apply (setItem_getItem "userProgressData" "saved" "1700000000000" usedStore Hw Hv).
Defined.

(** When [localStorage] can be read but not written (it is full), the
    value goes to [sessionStorage] under the key itself and
    [localStorage] stays as it was.  [Storage.getItem] then still
    prefers [localStorage]: it answers the new value only if
    [localStorage] holds nothing for the key, and otherwise the older
    value found there. *)
Theorem setItem_primary_full (key value now : string) (w : Web) :
  primaryFull w → value ≠ "" →
  let w' := setItem key value now w in
  localStorage w' = localStorage w ∧
  items (sessionStorage w') !! key = Some value ∧
  getItem key w' =
    (if truthy (items (localStorage w) !! key) then items (localStorage w) !! key
     else Some value).
Proof.
  intros (Hlr & Hlw & Hsr & Hsw) Hvalue. cbn zeta.
  unfold setItem, medium_setItem. rewrite Hlw, Hsw.
  unfold getItem, getItem_try, medium_getItem. cbn [localStorage sessionStorage items readThrows].
  rewrite Hlr, Hsr, lookup_insert_eq, (truthy_Some value Hvalue).
  split_and!; [done | done |].
  by destruct (truthy (items (localStorage w) !! key)).
Qed.

Lemma setItem_primary_full_witness :
  primaryFull fullStore ∧ "saved" ≠ "" ∧
  getItem "userProgressData" (setItem "userProgressData" "saved" "1700000000000" fullStore)
  = Some "old".
Proof.
  assert (primaryFull fullStore) as Hw by by split_and!.
  assert ("saved" ≠ "") as Hv by discriminate.
  split_and!; [exact Hw | exact Hv |].
  destruct (setItem_primary_full "userProgressData" "saved" "1700000000000" fullStore Hw Hv)
    as (_ & _ & ->).
  vm_compute. reflexivity.
Defined.

(** [Storage.setItem] writes nowhere else: in [localStorage] only the
    key and its timestamp can change, in [sessionStorage] only the key
    and its backup; and whether a medium throws is not changed. *)
Theorem setItem_frame (key value now : string) (w : Web) :
  let w' := setItem key value now w in
  (∀ other, other ≠ key → other ≠ key +:+ "_timestamp" →
     items (localStorage w') !! other = items (localStorage w) !! other) ∧
  (∀ other, other ≠ key → other ≠ key +:+ "_backup" →
     items (sessionStorage w') !! other = items (sessionStorage w) !! other) ∧
  readThrows (localStorage w') = readThrows (localStorage w) ∧
  writeThrows (localStorage w') = writeThrows (localStorage w) ∧
  readThrows (sessionStorage w') = readThrows (sessionStorage w) ∧
  writeThrows (sessionStorage w') = writeThrows (sessionStorage w) ∧
  (writeThrows (localStorage w) = true → localStorage w' = localStorage w).
Proof.
  cbn zeta. unfold setItem, medium_setItem.
  destruct (writeThrows (localStorage w)) eqn:Hlw, (writeThrows (sessionStorage w)) eqn:Hsw;
    cbn [writeThrows]; rewrite ?Hlw, ?Hsw;
    cbn [localStorage sessionStorage items readThrows writeThrows];
    (split_and!; try done; intros other H1 H2; by rewrite ?lookup_insert_ne).
Qed.

(** After a save with both media working, should [localStorage] lose
    its items, [Storage.getItem] still finds the saved value in the
    backup copy, unless [sessionStorage] already held a non-empty value
    under the key itself: that older live copy comes first. *)
Theorem backup_after_clear (key value now : string) (w : Web) :
  working w → value ≠ "" →
  getItem key (localStorageCleared (setItem key value now w)) =
    (if truthy (items (sessionStorage w) !! key) then items (sessionStorage w) !! key
     else Some value).
Proof.
  intros Hw Hvalue. rewrite (setItem_working _ _ _ _ Hw).
  unfold localStorageCleared, getItem, getItem_try, medium_getItem.
  cbn [localStorage sessionStorage items readThrows writeThrows].
  rewrite lookup_empty. cbn [truthy].
  rewrite lookup_insert_ne by by apply append_suffix_ne.
  destruct (truthy (items (sessionStorage w) !! key)); [done |].
  by rewrite lookup_insert_eq, (truthy_Some value Hvalue).
Qed.

Lemma backup_after_clear_witness :
  working usedStore ∧ "saved" ≠ "" ∧
  getItem "userProgressData"
    (localStorageCleared (setItem "userProgressData" "saved" "1700000000000" usedStore))
  = Some "saved".
Proof.
  assert (working usedStore) as Hw by by split_and!.
  assert ("saved" ≠ "") as Hv by discriminate.
  split_and!; [exact Hw | exact Hv |].
  by rewrite (backup_after_clear "userProgressData" "saved" "1700000000000" usedStore Hw Hv).
Defined.

End StorageMore.

(** * Further properties of the persistence coordinator *)

Module PersistenceMore.
Import Quests Persistence PersistenceFacts.

(** [validateUserData] accepts exactly the objects whose [userProfile],
    [dailyQuests] and [mainQuests] properties are truthy and whose
    [userProfile.totalXP] is a number.  It looks at nothing else: the
    two collections need not be arrays. *)
Theorem validateUserData_iff (data : json) :
  (validateUserData data = true ↔
   (∃ properties, data = JObj properties) ∧
   truthy (get data "userProfile") = true ∧
   truthy (get data "dailyQuests") = true ∧
   truthy (get data "mainQuests") = true ∧
   isNumber (v ← get data "userProfile"; get v "totalXP") = true) ∧
  validateUserData oddAggregate = true.
Proof.
  split; [| reflexivity]. split.
  - intros H. destruct (validateUserData_true data H)
      as (properties & profile & dailies & mains & xp & -> & Hp & Tp & Hd & Td & Hm & Tm & Hx).
    rewrite Hp, Hd, Hm. cbn [mbind option_bind]. rewrite Hx. split_and!; try done. by eexists.
  - intros ([properties ->] & Tp & Td & Tm & Hx).
    unfold validateUserData, requiredFields. cbn [truthy isObjectType negb orb forallb].
    by rewrite Tp, Td, Tm, Hx.
Qed.

(** Restoring the aggregate of a state [s] over a live state gives the
    cells of [s] back, whatever [savedAt] was, with three exceptions:
    the selected character is taken from the profile's avatar and not
    from the saved [selectedCharacter] (it stays the live one if the
    avatar is empty); an empty [lastResetDate] leaves the live date; and
    bonuses still pending in a timer are not part of the save. *)
Theorem restore_userData_exact (savedAt : string) (s live : State) :
  restore (userData savedAt s) live = Some (restored s live) ∧
  (UserProfile.avatar (userProfile s) ≠ "" →
   selectedCharacter (restored s live) = UserProfile.avatar (userProfile s)) ∧
  (lastResetDate s ≠ "" → lastResetDate (restored s live) = lastResetDate s) ∧
  (lastResetDate s = "" → lastResetDate (restored s live) = lastResetDate live) ∧
  pendingBonus (restored s live) = pendingBonus live ∧
  (UserProfile.avatar (userProfile s) = selectedCharacter s → lastResetDate s ≠ "" →
   restored s s = s).
Proof.
  split; [apply restore_userData |]. unfold restored. cbn.
  split_and!.
  - intros H. by destruct (String.eqb_spec (UserProfile.avatar (userProfile s)) "").
  - intros H. by destruct (String.eqb_spec (lastResetDate s) "").
  - by intros ->.
  - done.
  - intros Ha Hd. destruct (String.eqb_spec (lastResetDate s) ""); [done |].
    destruct s. cbn in *. subst. by destruct (String.eqb _ _).
Qed.

(** An aggregate that has the three required properties and none of
    the optional ones is accepted, and restoring it replaces the
    profile and the two quest collections only: the ledger, the reset
    date, the theme and every setting of the live state stay. *)
Theorem restore_minimal (p : UserProfile.t) (daily : list DailyQuest.t)
    (main : list MainQuest.t) (live : State) :
  validateUserData (minimalData p daily main) = true ∧
  restore (minimalData p daily main) live = Some (restoredMinimal p daily main live).
Proof.
  split; [reflexivity |]. unfold restore.
  change (get (minimalData p daily main) "userProfile") with (Some (userProfileJSON p)).
  change (get (minimalData p daily main) "dailyQuests")
    with (Some (JArr (map dailyQuestJSON daily))).
  change (get (minimalData p daily main) "mainQuests")
    with (Some (JArr (map mainQuestJSON main))).
  change (get (minimalData p daily main) "completedQuests") with (@None json).
  change (get (minimalData p daily main) "lastResetDate") with (@None json).
  change (get (minimalData p daily main) "notifications") with (@None json).
  change (get (minimalData p daily main) "progressReminders") with (@None json).
  change (get (minimalData p daily main) "soundEnabled") with (@None json).
  change (get (minimalData p daily main) "vibrationsEnabled") with (@None json).
  change (get (minimalData p daily main) "theme") with (@None json).
  change (get (minimalData p daily main) "animationsEnabled") with (@None json).
  rewrite (whenTruthy_Some _ _ _ p); [| done | apply readUserProfile_userProfileJSON].
  cbn [mbind option_bind].
  rewrite (whenTruthy_Some _ _ _ daily); [| done |].
  2:{ cbn. apply mapM_read, readDailyQuest_dailyQuestJSON. }
  cbn [mbind option_bind].
  rewrite (whenTruthy_Some _ _ _ main); [| done |].
  2:{ cbn. apply mapM_read, readMainQuest_mainQuestJSON. }
  cbn [mbind option_bind whenTruthy whenDefined].
  unfold restoredMinimal.
  destruct (String.eqb (UserProfile.avatar p) ""); destruct live; reflexivity.
Qed.

Section EndToEnd.

Variable stringify : json → string.
Variable parse : string → option json.


End EndToEnd.


End PersistenceMore.
